(** * PlanByWeather: the recommendation engine of the [recommend] Edge Function

    A shallow embedding of the TypeScript handler (rule evaluator, fallback
    generator, model-assisted generator, orchestrator) and the properties its
    specification states about it.

    The handler manipulates untyped JavaScript data (request bodies and
    provider replies are whatever JSON the peer sent), so the embedding starts
    with the fragment of the host language the handler relies on: UTF-16
    strings, numbers, JSON values and the conversions [String], [Number],
    [||], [??] and [?.]. Calls that leave the handler (the weather client,
    the model provider) are answered by a [World] and recorded in a trace;
    [console] output is not modelled. *)

From Stdlib Require Import List Bool Ascii String NArith ZArith QArith Qround Lia Lqa.
From Stdlib Require DecimalString.
Import ListNotations.

Set Implicit Arguments.
Set Warnings "-register-all".
Close Scope Q_scope.
Local Open Scope bool_scope.

(* ------------------------------------------------------------------ *)
(** ** Strings *)

(** A JavaScript string is a sequence of UTF-16 code units; [length],
    [slice] and [trim] all count code units. *)
Definition code_unit := N.
Definition jsstring := list code_unit.

(** Source literals are written as Rocq strings (UTF-8 bytes) and decoded to
    their UTF-16 code units. *)
Fixpoint utf16_of_utf8 (bs : list N) : jsstring :=
  match bs with
  | [] => []
  | b0 :: t0 =>
    if (b0 <? 128)%N then b0 :: utf16_of_utf8 t0
    else match t0 with
    | [] => [65533%N]
    | b1 :: t1 =>
      if (b0 <? 224)%N then
        ((b0 mod 32) * 64 + b1 mod 64)%N :: utf16_of_utf8 t1
      else match t1 with
      | [] => [65533%N]
      | b2 :: t2 =>
        if (b0 <? 240)%N then
          ((b0 mod 16) * 4096 + (b1 mod 64) * 64 + b2 mod 64)%N
            :: utf16_of_utf8 t2
        else match t2 with
        | [] => [65533%N]
        | b3 :: t3 =>
          let cp := ((b0 mod 8) * 262144 + (b1 mod 64) * 4096
                     + (b2 mod 64) * 64 + b3 mod 64 - 65536)%N in
          (55296 + cp / 1024)%N :: (56320 + cp mod 1024)%N :: utf16_of_utf8 t3
        end
      end
    end
  end.

Definition js (s : string) : jsstring :=
  utf16_of_utf8 (map N_of_ascii (list_ascii_of_string s)).

Fixpoint str_eqb (a b : jsstring) : bool :=
  match a, b with
  | [], [] => true
  | x :: a', y :: b' => (x =? y)%N && str_eqb a' b'
  | _, _ => false
  end.

(** [WhiteSpace] and [LineTerminator] code units: what [trim] strips and
    what [Number] ignores around a numeric literal. *)
Definition is_space (c : code_unit) : bool :=
  existsb (N.eqb c)
    [9; 10; 11; 12; 13; 32; 160; 5760; 8232; 8233; 8239; 8287; 12288; 65279]%N
  || ((8192 <=? c) && (c <=? 8202))%N.

Fixpoint drop_while (p : code_unit -> bool) (s : jsstring) : jsstring :=
  match s with
  | [] => []
  | c :: t => if p c then drop_while p t else s
  end.

Fixpoint take_while (p : code_unit -> bool) (s : jsstring) : jsstring :=
  match s with
  | [] => []
  | c :: t => if p c then c :: take_while p t else []
  end.

Definition nonempty (s : jsstring) : bool :=
  match s with [] => false | _ => true end.

(** [s.trim()] *)
Definition trim (s : jsstring) : jsstring :=
  rev (drop_while is_space (rev (drop_while is_space s))).

(** [s.slice(0, n)] *)
Definition slice0 (n : nat) (s : jsstring) : jsstring := firstn n s.

(* ------------------------------------------------------------------ *)
(** ** Numbers *)

(** A JavaScript number is an IEEE double. The handler only compares
    numbers, rounds them to an integer and takes minima and maxima; all of
    these are exact on doubles, so a finite double is represented by the
    rational it denotes (the sign of zero is not observed by any of these
    operations). *)
Inductive number :=
  | NaN
  | PosInf
  | NegInf
  | Fin (q : Q).

(** The order of the extended rationals; [NaN] is unordered. *)
Inductive num_lt : number -> number -> Prop :=
  | lt_fin x y : (x < y)%Q -> num_lt (Fin x) (Fin y)
  | lt_fin_inf x : num_lt (Fin x) PosInf
  | lt_inf_fin y : num_lt NegInf (Fin y)
  | lt_inf_inf : num_lt NegInf PosInf.

(** [a < b] *)
Definition num_ltb (a b : number) : bool :=
  match a, b with
  | Fin x, Fin y => match (x ?= y)%Q with Lt => true | _ => false end
  | Fin _, PosInf => true
  | NegInf, Fin _ => true
  | NegInf, PosInf => true
  | _, _ => false
  end.

(** [a > b] *)
Definition num_gtb (a b : number) : bool := num_ltb b a.

Definition is_nan (n : number) : bool :=
  match n with NaN => true | _ => false end.

(** [Math.round]: the nearest integer, ties towards plus infinity. *)
Definition Math_round (n : number) : number :=
  match n with
  | Fin q => Fin (inject_Z (Qfloor (q + (1 # 2))))
  | _ => n
  end.

(** [Math.min(a, b)] and [Math.max(a, b)]: [NaN] if either argument is. *)
Definition Math_min (a b : number) : number :=
  if is_nan a || is_nan b then NaN else if num_ltb b a then b else a.

Definition Math_max (a b : number) : number :=
  if is_nan a || is_nan b then NaN else if num_ltb a b then b else a.

Definition of_Z (z : Z) : number := Fin (inject_Z z).

(** The number is an integer between [lo] and [hi]. *)
Definition int_between (lo hi : Z) (n : number) : Prop :=
  exists z : Z, n = of_Z z /\ (lo <= z <= hi)%Z.

(* ------------------------------------------------------------------ *)
(** ** Values *)

(** Runtime values built by [JSON.parse] (plus [undefined], which property
    access produces). An object lists its own properties. *)
Inductive value :=
  | VUndefined
  | VNull
  | VBool (b : bool)
  | VNum (n : number)
  | VStr (s : jsstring)
  | VArr (elems : list value)
  | VObj (props : list (jsstring * value)).

Fixpoint assoc (k : jsstring) (ps : list (jsstring * value)) : option value :=
  match ps with
  | [] => None
  | (k', v) :: t => if str_eqb k k' then Some v else assoc k t
  end.

Definition is_nullish (v : value) : bool :=
  match v with VUndefined | VNull => true | _ => false end.

(** Reading property [name] of a value that is neither [null] nor
    [undefined]. The handler reads only names that no built-in prototype
    defines (city, title, ...), so only an object's own properties answer. *)
Definition own (v : value) (name : jsstring) : value :=
  match v with
  | VObj ps => match assoc name ps with Some x => x | None => VUndefined end
  | _ => VUndefined
  end.

(** [v?.name] *)
Definition opt_get (v : value) (name : jsstring) : value :=
  if is_nullish v then VUndefined else own v name.

(** [v?.[i]] *)
Definition opt_index (v : value) (i : nat) : value :=
  match v with
  | VArr l => nth i l VUndefined
  | VStr s => match nth_error s i with Some c => VStr [c] | None => VUndefined end
  | VObj ps =>
    match assoc (js (DecimalString.NilZero.string_of_uint (Nat.to_uint i))) ps with
    | Some x => x
    | None => VUndefined
    end
  | _ => VUndefined
  end.

(** Truthiness: [undefined], [null], [false], [0], [NaN] and the empty
    string are falsy. *)
Definition truthy (v : value) : bool :=
  match v with
  | VUndefined | VNull => false
  | VBool b => b
  | VNum (Fin q) => negb (Qeq_bool q 0)
  | VNum NaN => false
  | VNum _ => true
  | VStr s => nonempty s
  | VArr _ | VObj _ => true
  end.

(** [a || b], [a ?? b] *)
Definition or_else (a b : value) : value := if truthy a then a else b.
Definition coalesce (a b : value) : value := if is_nullish a then b else a.

(** [v === "lit"] *)
Definition is_str (v : value) (lit : jsstring) : bool :=
  match v with VStr s => str_eqb s lit | _ => false end.

(** [Array.isArray(v)] *)
Definition isArray (v : value) : bool :=
  match v with VArr _ => true | _ => false end.

(* ------------------------------------------------------------------ *)
(** ** Domain types (the type declarations at the top of the handler) *)

Inductive PlacePref := place_indoor | place_outdoor | place_either.

Inductive Label := indoor | outdoor.

Inductive Provider := openweather.

Record WeatherSnapshot := {
  provider : Provider;
  city : jsstring;
  tempC : number;
  windMps : number;
  condition : jsstring;
  isRainy : bool
}.

Record Recommendation := {
  title : jsstring;
  reason : jsstring;
  label : Label;
  confidence : number
}.

(** A value of type [PlacePref | undefined] as it exists at run time. *)
Definition place_value (p : option PlacePref) : value :=
  match p with
  | None => VUndefined
  | Some place_indoor => VStr (js "indoor")
  | Some place_outdoor => VStr (js "outdoor")
  | Some place_either => VStr (js "either")
  end.

(* ------------------------------------------------------------------ *)
(** ** clampInt *)

Definition clampInt (n lo hi : number) : number :=
  Math_max lo (Math_min hi (Math_round n)).

(* ------------------------------------------------------------------ *)
(** ** Rule evaluator: ruleHintsFromWeather *)

Record Flags := { tooCold : bool; tooHot : bool; tooWindy : bool }.

Record RuleHints := {
  preferIndoor : bool;
  notes : list jsstring;
  flags : Flags
}.

Definition ruleHintsFromWeather (w : WeatherSnapshot) : RuleHints :=
  let tooCold := num_ltb (tempC w) (of_Z 8) in
  let tooHot := num_gtb (tempC w) (of_Z 32) in
  let tooWindy := num_gtb (windMps w) (of_Z 10) in
  let preferIndoor := isRainy w || tooCold || tooHot || tooWindy in
  let notes :=
    (if isRainy w then [js "Yağış var: dış mekân önerilerini azalt."] else [])
    ++ (if tooCold then [js "Soğuk: uzun outdoor aktiviteleri azalt."] else [])
    ++ (if tooHot then [js "Sıcak: gölge/klimalı seçenekleri artır."] else [])
    ++ (if tooWindy
        then [js "Rüzgarlı: yürüyüş/park yerine indoor ağırlık ver."] else []) in
  {| preferIndoor := preferIndoor;
     notes := notes;
     flags := {| tooCold := tooCold; tooHot := tooHot; tooWindy := tooWindy |} |}.

(* ------------------------------------------------------------------ *)
(** ** Fallback generator: fallbackRecommendations *)

(** [place && place !== "either" ? place : null] *)
Definition userTarget (place : value) : value :=
  if truthy place && negb (is_str place (js "either")) then place else VNull.

(** [preferIndoor ? "indoor" : userTarget ?? "outdoor"] *)
Definition target (w : WeatherSnapshot) (place : value) : value :=
  if preferIndoor (ruleHintsFromWeather w) then VStr (js "indoor")
  else coalesce (userTarget place) (VStr (js "outdoor")).

(** An entry of the candidate pools. *)
Definition rec (t r : string) (l : Label) (c : Z) : Recommendation :=
  {| title := js t; reason := js r; label := l; confidence := of_Z c |}.

(** The local constants [indoor] and [outdoor]. *)
Definition indoor_pool : list Recommendation :=
  [ rec "Coffee + a book" "Low effort, cozy, and weather-proof." indoor 74;
    rec "Museum / gallery visit"
        "A solid 1–2 hour plan that doesn’t depend on the weather." indoor 70;
    rec "Cinema or a small event"
        "One of the safest picks when it’s rainy or windy." indoor 68;
    rec "Gym / short home workout"
        "If you want something active in a controlled environment." indoor 66;
    rec "Try a new recipe" "A fun low-budget option you can do at home." indoor 62 ].

Definition outdoor_pool : list Recommendation :=
  [ rec "Short walk + photos"
        "If the weather is okay, it’s the simplest plan that feels good." outdoor 74;
    rec "Park coffee break" "Keep it short to keep the risk low." outdoor 70;
    rec "Bike ride / waterfront loop"
        "Great energy boost if the wind is not too strong." outdoor 66;
    rec "Neighborhood walk (new route)"
        "Keep the scope small: 60–90 minutes." outdoor 64;
    rec "Market run + a small detour" "Practical + a bit of fresh air." outdoor 60 ].

(** [{ ...r, confidence: clampInt(r.confidence, 0, 100) }] *)
Definition reclamp (r : Recommendation) : Recommendation :=
  {| title := title r; reason := reason r; label := label r;
     confidence := clampInt (confidence r) (of_Z 0) (of_Z 100) |}.

Definition safetyNote (w : WeatherSnapshot) : jsstring :=
  if isRainy w
  then js "It’s rainy—bring a jacket/umbrella and keep it short."
  else js "Weather is not ideal—keep it short and flexible.".

Definition extras (w : WeatherSnapshot) : list Recommendation :=
  [ {| title := js "Quick errand walk"; reason := safetyNote w;
       label := outdoor; confidence := of_Z 45 |};
    {| title := js "Short café hop nearby"; reason := safetyNote w;
       label := outdoor; confidence := of_Z 42 |} ].

Definition fallbackRecommendations (w : WeatherSnapshot) (place : value)
  : list Recommendation :=
  let preferIndoor := preferIndoor (ruleHintsFromWeather w) in
  let base :=
    map reclamp
        (if is_str (target w place) (js "indoor") then indoor_pool else outdoor_pool) in
  if preferIndoor && is_str (userTarget place) (js "outdoor")
  then firstn 7 (base ++ extras w)
  else base.

(* ------------------------------------------------------------------ *)
(** ** Exceptions and conversions *)

Inductive exn :=
  | Error (message : jsstring)  (* [throw new Error(message)] *)
  | TypeError                   (* raised by the runtime *)
  | SyntaxError                 (* raised by [JSON.parse] *)
  | Rejected.                   (* the reason of a rejected [fetch] or [res.json()] *)

(** A computation that returns ([inr]) or throws ([inl]). *)
Definition throws (A : Type) : Type := (exn + A)%type.

Definition and_then {A B} (m : throws A) (k : A -> throws B) : throws B :=
  match m with
  | inl e => inl e
  | inr a => k a
  end.

Declare Scope js_scope.
Delimit Scope js_scope with js.
Notation "x <~ m ;; k" := (and_then m (fun x => k))
  (at level 61, m at next level, right associativity) : js_scope.
Local Open Scope js_scope.

(** [xs.map(f)] for a callback that may throw: the first exception aborts. *)
Fixpoint map_throwing {A B} (f : A -> throws B) (xs : list A) : throws (list B) :=
  match xs with
  | [] => inr []
  | x :: t => y <~ f x ;; ys <~ map_throwing f t ;; inr (y :: ys)
  end.

(** Built-in functions the handler calls whose results depend on the binary
    representation of doubles or on the JSON grammar; every statement below
    holds for all of them. *)
Class Runtime := {
  (** [Number::toString]: the decimal text of a number *)
  number_to_string : number -> jsstring;
  (** the value of a string that is a [StringNumericLiteral] *)
  string_numeric_value : jsstring -> number;
  (** [JSON.parse]; [None] when it throws *)
  JSON_parse : jsstring -> option value
}.

Definition is_digit (c : code_unit) : bool := ((48 <=? c) && (c <=? 57))%N.
Definition is_sign (c : code_unit) : bool := ((c =? 43) || (c =? 45))%N.
Definition is_hex (c : code_unit) : bool :=
  (is_digit c || ((65 <=? c) && (c <=? 70)) || ((97 <=? c) && (c <=? 102)))%N.

Definition some_all (p : code_unit -> bool) (s : jsstring) : bool :=
  match s with [] => false | _ => forallb p s end.

(** An optional [ExponentPart]. *)
Definition exponent_ok (s : jsstring) : bool :=
  match s with
  | [] => true
  | c :: t =>
    ((c =? 101) || (c =? 69))%N
    && match t with
       | [] => false
       | d :: t' => if is_sign d then some_all is_digit t' else some_all is_digit t
       end
  end.

(** [StrUnsignedDecimalLiteral] *)
Definition unsigned_decimal_ok (s : jsstring) : bool :=
  str_eqb s (js "Infinity")
  || let int := take_while is_digit s in
     match drop_while is_digit s with
     | c :: r =>
       if (c =? 46)%N
       then (nonempty int || nonempty (take_while is_digit r))
            && exponent_ok (drop_while is_digit r)
       else nonempty int && exponent_ok (c :: r)
     | [] => nonempty int
     end.

(** [NonDecimalIntegerLiteral]: 0b, 0o and 0x literals *)
Definition radix_literal_ok (s : jsstring) : bool :=
  match s with
  | z :: x :: ds =>
    (z =? 48)%N
    && (if ((x =? 98) || (x =? 66))%N
        then some_all (fun c => (c =? 48) || (c =? 49))%N ds
        else if ((x =? 111) || (x =? 79))%N
        then some_all (fun c => (48 <=? c) && (c <=? 55))%N ds
        else if ((x =? 120) || (x =? 88))%N
        then some_all is_hex ds
        else false)
  | _ => false
  end.

(** [StrNumericLiteral] *)
Definition numeric_literal_ok (s : jsstring) : bool :=
  radix_literal_ok s
  || match s with
     | c :: t => if is_sign c then unsigned_decimal_ok t else unsigned_decimal_ok s
     | [] => false
     end.

Section Conversions.
Context {RT : Runtime}.

(** [StringToNumber]: a string that is not a numeric literal is [NaN];
    the empty or blank string is [0]. *)
Definition string_to_number (s : jsstring) : number :=
  match trim s with
  | [] => of_Z 0
  | t => if numeric_literal_ok t then string_numeric_value t else NaN
  end.

(** [ToString]. An object made by [JSON.parse] inherits
    [Object.prototype.toString] unless an own property named [toString]
    shadows it; that property is never callable, and [valueOf] never
    yields a primitive, so the conversion throws. An array is joined with
    commas, [null] and [undefined] elements contributing nothing. *)
Fixpoint to_string (v : value) : throws jsstring :=
  match v with
  | VUndefined => inr (js "undefined")
  | VNull => inr (js "null")
  | VBool b => inr (if b then js "true" else js "false")
  | VNum n => inr (number_to_string n)
  | VStr s => inr s
  | VObj ps =>
    match assoc (js "toString") ps with
    | Some _ => inl TypeError
    | None => inr (js "[object Object]")
    end
  | VArr l =>
    (fix join (l : list value) : throws jsstring :=
       match l with
       | [] => inr []
       | x :: t =>
         s <~ (if is_nullish x then inr [] else to_string x) ;;
         match t with
         | [] => inr s
         | _ => r <~ join t ;; inr (s ++ js "," ++ r)
         end
       end) l
  end.

(** [String(v)] *)
Definition String_ (v : value) : throws jsstring := to_string v.

(** [Number(v)]: an object or array is first converted to the same
    primitive string as by [ToString]. *)
Definition Number_ (v : value) : throws number :=
  match v with
  | VUndefined => inr NaN
  | VNull => inr (of_Z 0)
  | VBool b => inr (if b then of_Z 1 else of_Z 0)
  | VNum n => inr n
  | VStr s => inr (string_to_number s)
  | VArr _ | VObj _ => s <~ to_string v ;; inr (string_to_number s)
  end.

End Conversions.

(* ------------------------------------------------------------------ *)
(** ** The outside world *)

(** [RecommendRequest] as [callOpenAI] receives it: the trimmed city and the
    unvalidated [preferences] of the request body. *)
Record RecommendRequest := {
  req_city : jsstring;
  req_preferences : value
}.

(** The [user] object placed in the prompt. *)
Record UserPayload := {
  user_city : jsstring;
  user_mood : value;
  user_budget : value;
  user_place : value;
  user_weather : WeatherSnapshot;
  rules_preferIndoor : bool;
  rules_notes : list jsstring
}.

(** What is sent to the model provider (the system prompt and the JSON
    schema are constants of the handler). *)
Record OpenAIRequest := {
  bearer : jsstring;
  request_model : jsstring;
  request_user : UserPayload
}.

(** The [Response] object [fetch] resolves to. [res_text] and [res_json] are
    the results of [res.text()] and [res.json()], [None] when the promise
    rejects. *)
Record Response := {
  res_status : N;
  res_statusText : jsstring;
  res_text : option jsstring;
  res_json : option value
}.

Definition res_ok (r : Response) : bool :=
  ((200 <=? res_status r) && (res_status r <=? 299))%N.

Inductive fetch_result :=
  | FetchRejected
  | FetchResolved (res : Response).

(** The outcome of [fetchOpenWeather(city, apiKey)], the weather client: a
    snapshot, or a thrown value ([Some message] when it is an [Error]). *)
Inductive weather_result :=
  | WeatherOk (w : WeatherSnapshot)
  | WeatherThrew (message : option jsstring).

Record World := {
  (** [Deno.env.get] *)
  env_get : jsstring -> option jsstring;
  fetchOpenWeather : jsstring -> jsstring -> weather_result;
  (** [fetch("https://api.openai.com/v1/responses", ...)] *)
  fetch_openai : OpenAIRequest -> fetch_result
}.

(** Calls that leave the handler, in order. *)
Inductive event :=
  | WeatherFetch (city apiKey : jsstring)
  | OpenAIFetch (rq : OpenAIRequest).

Definition io (A : Type) : Type := list event -> A * list event.

Definition ret {A} (a : A) : io A := fun tr => (a, tr).

Definition bind {A B} (m : io A) (k : A -> io B) : io B :=
  fun tr => let (a, tr') := m tr in k a tr'.

Notation "x <- m ;; k" := (bind m (fun x => k))
  (at level 61, m at next level, right associativity) : js_scope.

Definition emit (e : event) : io unit := fun tr => (tt, tr ++ [e]).

Definition run {A} (m : io A) : A * list event := m [].

(* ------------------------------------------------------------------ *)
(** ** Model-assisted generator: callOpenAI *)

Record OpenAIArgs := {
  apiKey : jsstring;
  model : jsstring;
  req : RecommendRequest;
  weather : WeatherSnapshot
}.

(** The handler's input and output. *)

(** [req.method] and the result of [req.json()] ([None] when it rejects). *)
Record Request := {
  method : jsstring;
  body : option value
}.

Record RecommendResponse := {
  resp_city : jsstring;
  resp_weather : WeatherSnapshot;
  recommendations : list Recommendation
}.

Inductive Reply :=
  | NoContent                                   (* status 204, CORS preflight *)
  | Failure (status : N) (error : jsstring)     (* [json(status, { error })] *)
  | Success (resp : RecommendResponse).         (* [json(200, resp)] *)

(** The handler returns a reply or lets an exception escape. *)
Inductive outcome :=
  | Returned (r : Reply)
  | Threw (e : exn).

Section Engine.
Context {RT : Runtime}.
Variable W : World.

(** The callback of [recs.map]. *)
Definition toRecommendation (r : value) : throws Recommendation :=
  if is_nullish r then inl TypeError
  else
    t <~ String_ (coalesce (own r (js "title")) (VStr [])) ;;
    rs <~ String_ (coalesce (own r (js "reason")) (VStr [])) ;;
    c <~ Number_ (coalesce (own r (js "confidence")) (VNum (of_Z 50))) ;;
    inr {| title := slice0 60 t;
           reason := slice0 140 rs;
           label := if is_str (own r (js "label")) (js "outdoor")
                    then outdoor else indoor;
           confidence := clampInt c (of_Z 0) (of_Z 100) |}.

(** The part of [callOpenAI] after [fetch] has resolved or rejected. *)
Definition readCompletion (res : fetch_result) : throws (list Recommendation) :=
  match res with
  | FetchRejected => inl Rejected
  | FetchResolved res =>
    if negb (res_ok res) then
      let text := match res_text res with Some t => t | None => [] end in
      inl (Error (js "OpenAI error ("
                  ++ number_to_string (Fin (inject_Z (Z.of_N (res_status res))))
                  ++ js "): "
                  ++ (if nonempty text then text else res_statusText res)))
    else
      match res_json res with
      | None => inl Rejected
      | Some data =>
        let text :=
          match opt_get data (js "output_text") with
          | VStr s => VStr s
          | _ => opt_get (opt_index (opt_get (opt_index (opt_get data (js "output")) 0)
                                             (js "content")) 0) (js "text")
          end in
        match text with
        | VStr text =>
          match JSON_parse text with
          | None => inl SyntaxError
          | Some parsed =>
            match opt_get parsed (js "recommendations") with
            | VArr recs => map_throwing toRecommendation recs
            | _ => inl (Error (js "OpenAI JSON missing recommendations array."))
            end
          end
        | _ => inl (Error (js "OpenAI response did not contain JSON text."))
        end
      end
  end.

(** The request [callOpenAI] sends: credential, model and the [user] object
    with its defaulted preferences and the rule evaluator's hints. *)
Definition openai_request (args : OpenAIArgs) : OpenAIRequest :=
  let hints := ruleHintsFromWeather (weather args) in
  let prefs := req_preferences (req args) in
  let place := coalesce (opt_get prefs (js "place")) (VStr (js "either")) in
  let mood := coalesce (opt_get prefs (js "mood")) (VStr (js "chill")) in
  let budget := coalesce (opt_get prefs (js "budget")) (VStr (js "low")) in
  let user :=
    {| user_city := req_city (req args);
       user_mood := mood; user_budget := budget; user_place := place;
       user_weather := weather args;
       rules_preferIndoor := preferIndoor hints;
       rules_notes := notes hints |} in
  {| bearer := apiKey args; request_model := model args; request_user := user |}.

Definition callOpenAI (args : OpenAIArgs) : io (throws (list Recommendation)) :=
  let rq := openai_request args in
  _ <- emit (OpenAIFetch rq) ;;
  ret (readCompletion (fetch_openai W rq)).

(* ---------------------------------------------------------------- *)
(** ** Orchestrator: the handler given to Deno.serve *)

Definition env_or (name : string) (default : jsstring) : jsstring :=
  match env_get W (js name) with Some v => v | None => default end.

(** [body.preferences?.place]; once the city is known to be non-empty the
    body is neither [null] nor [undefined]. *)
Definition requested_place (body : value) : value :=
  opt_get (own body (js "preferences")) (js "place").

Definition handler (rq : Request) : io outcome :=
  if str_eqb (method rq) (js "OPTIONS") then ret (Returned NoContent)
  else if negb (str_eqb (method rq) (js "POST")) then
    ret (Returned (Failure 405 (js "Method not allowed. Use POST.")))
  else
    match body rq with
    | None => ret (Returned (Failure 400 (js "Invalid JSON body.")))
    | Some body =>
      match String_ (or_else (opt_get body (js "city")) (VStr [])) with
      | inl e => ret (Threw e)
      | inr s =>
        let city := trim s in
        if negb (nonempty city) then
          ret (Returned (Failure 400 (js "city is required.")))
        else
          let weatherKey := env_or "WEATHER_API_KEY" [] in
          let openaiKey := env_or "OPENAI_API_KEY" [] in
          let openaiModel := env_or "OPENAI_MODEL" (js "gpt-4.1-mini") in
          if negb (nonempty weatherKey) then
            ret (Returned (Failure 500
              (js "Missing WEATHER_API_KEY on the server (Edge Function env).")))
          else
            _ <- emit (WeatherFetch city weatherKey) ;;
            match fetchOpenWeather W city weatherKey with
            | WeatherThrew m =>
              ret (Returned (Failure 500
                (match m with Some m => m | None => js "Unknown error" end)))
            | WeatherOk weather =>
              recommendations <-
                (if nonempty openaiKey then
                   r <- callOpenAI
                          {| apiKey := openaiKey; model := openaiModel;
                             req := {| req_city := city;
                                       req_preferences := own body (js "preferences") |};
                             weather := weather |} ;;
                   match r with
                   | inr recs => ret recs
                   | inl _ =>
                     ret (fallbackRecommendations weather (requested_place body))
                   end
                 else ret (fallbackRecommendations weather (requested_place body))) ;;
              ret (Returned (Success {| resp_city := city;
                                        resp_weather := weather;
                                        recommendations := recommendations |}))
            end
      end
    end.

End Engine.

Section Reply.
Context {RT : Runtime}.

(** [callOpenAI] between [fetch] settling and [recs.map]: the checks of the
    status and of the reply's shape, ending with the array [recs] found
    under [recommendations] in the parsed text. *)
Definition repliedArray (res : fetch_result) : throws (list value) :=
  match res with
  | FetchRejected => inl Rejected
  | FetchResolved res =>
    if negb (res_ok res) then
      let text := match res_text res with Some t => t | None => [] end in
      inl (Error (js "OpenAI error ("
                  ++ number_to_string (Fin (inject_Z (Z.of_N (res_status res))))
                  ++ js "): "
                  ++ (if nonempty text then text else res_statusText res)))
    else
      match res_json res with
      | None => inl Rejected
      | Some data =>
        let text :=
          match opt_get data (js "output_text") with
          | VStr s => VStr s
          | _ => opt_get (opt_index (opt_get (opt_index (opt_get data (js "output")) 0)
                                             (js "content")) 0) (js "text")
          end in
        match text with
        | VStr text =>
          match JSON_parse text with
          | None => inl SyntaxError
          | Some parsed =>
            match opt_get parsed (js "recommendations") with
            | VArr recs => inr recs
            | _ => inl (Error (js "OpenAI JSON missing recommendations array."))
            end
          end
        | _ => inl (Error (js "OpenAI response did not contain JSON text."))
        end
      end
  end.

End Reply.


(* ------------------------------------------------------------------ *)
(** ** Weather client: fetchOpenWeather *)

(** The query of the request [fetchOpenWeather] sends. *)
Record WeatherRequest := {
  query_q : jsstring;
  query_appid : jsstring;
  query_units : jsstring
}.

Definition weather_request (city apiKey : jsstring) : WeatherRequest :=
  {| query_q := city; query_appid := apiKey; query_units := js "metric" |}.

Fixpoint starts_with (same : code_unit -> code_unit -> bool) (pat s : jsstring) : bool :=
  match pat, s with
  | [], _ => true
  | _ :: _, [] => false
  | p :: pat', c :: s' => same p c && starts_with same pat' s'
  end.

(** [pat] occurs somewhere in [s]. *)
Fixpoint occurs (same : code_unit -> code_unit -> bool) (pat s : jsstring) : bool :=
  starts_with same pat s
  || match s with
     | [] => false
     | _ :: s' => occurs same pat s'
     end.

(** [s.includes(pat)] *)
Definition includes (pat s : jsstring) : bool := occurs N.eqb pat s.

Definition lower_ascii (c : code_unit) : code_unit :=
  if ((65 <=? c) && (c <=? 90))%N then (c + 32)%N else c.

(** A lower-case ASCII letter of a pattern with flag [i] matches the letter
    in either case and nothing else: without flag [u] a code unit above 127
    is never folded onto an ASCII letter. *)
Definition same_letter (p c : code_unit) : bool := (lower_ascii c =? p)%N.

Definition rain_words : list jsstring :=
  [js "rain"; js "drizzle"; js "storm"; js "thunder"].

(** [/rain|drizzle|storm|thunder/i.test(s)] *)
Definition mentions_rain (s : jsstring) : bool :=
  existsb (fun word => occurs same_letter word s) rain_words.

(** [Number.isFinite(n)] *)
Definition isFinite (n : number) : bool :=
  match n with Fin _ => true | _ => false end.

(** [a && b] *)
Definition and_also (a b : value) : value := if truthy a then b else a.

Section WeatherClient.
Context {RT : Runtime}.

(** [fetchOpenWeather] from the point where [fetch(url)] has settled. *)
Definition readWeather (city : jsstring) (res : fetch_result) : throws WeatherSnapshot :=
  match res with
  | FetchRejected => inl Rejected
  | FetchResolved res =>
    if negb (res_ok res) then
      let text := match res_text res with Some t => t | None => [] end in
      inl (Error (js "Weather API error ("
                  ++ number_to_string (Fin (inject_Z (Z.of_N (res_status res))))
                  ++ js "): "
                  ++ (if nonempty text then text else res_statusText res)))
    else
      match res_json res with
      | None => inl Rejected
      | Some data =>
        tempC <~ Number_ (opt_get (opt_get data (js "main")) (js "temp")) ;;
        windMps <~ Number_ (opt_get (opt_get data (js "wind")) (js "speed")) ;;
        let first := opt_index (opt_get data (js "weather")) 0 in
        condition <~ String_ (or_else (or_else (opt_get first (js "main"))
                                               (opt_get first (js "description")))
                                      (VStr (js "unknown"))) ;;
        let rain := opt_get data (js "rain") in
        let isRainy :=
          truthy (and_also rain (or_else (own rain (js "1h")) (own rain (js "3h"))))
          || mentions_rain condition in
        if negb (isFinite tempC) || negb (isFinite windMps) then
          inl (Error (js "Weather API returned unexpected data shape."))
        else
          inr {| provider := openweather; city := city; tempC := tempC;
                 windMps := windMps; condition := condition; isRainy := isRainy |}
      end
  end.

End WeatherClient.

(** A world whose weather client is [fetchOpenWeather] running over the
    HTTP exchange [http]: a snapshot it returns is the world's answer, an
    [Error] it throws is reported with its message, and any other thrown
    value is reported in some way. *)
Definition weather_client_over {RT : Runtime}
    (http : WeatherRequest -> fetch_result) (W : World) : Prop :=
  forall city key,
    match readWeather city (http (weather_request city key)) with
    | inr w => fetchOpenWeather W city key = WeatherOk w
    | inl (Error m) => fetchOpenWeather W city key = WeatherThrew (Some m)
    | inl _ => exists m, fetchOpenWeather W city key = WeatherThrew m
    end.

(* ------------------------------------------------------------------ *)
(** ** Browser client: public environment and Supabase client *)

(** [new URL(s).protocol], [None] when the constructor throws. *)
Class UrlParser := {
  URL_protocol : jsstring -> option jsstring
}.

(** [import.meta.env]: the two variables the page reads. *)
Record ViteEnv := {
  VITE_SUPABASE_URL : value;
  VITE_SUPABASE_ANON_KEY : value
}.

(** The body shared by [readViteSupabaseUrl] and [readViteSupabaseAnonKey]:
    a string is trimmed, and anything else, or a blank string, is [null]. *)
Definition readViteString (v : value) : option jsstring :=
  match v with
  | VStr s => let t := trim s in if nonempty t then Some t else None
  | _ => None
  end.

Definition readViteSupabaseUrl (e : ViteEnv) : option jsstring :=
  readViteString (VITE_SUPABASE_URL e).

Definition readViteSupabaseAnonKey (e : ViteEnv) : option jsstring :=
  readViteString (VITE_SUPABASE_ANON_KEY e).

Definition isValidHttpUrl {U : UrlParser} (s : jsstring) : bool :=
  match URL_protocol s with
  | Some p => str_eqb p (js "http:") || str_eqb p (js "https:")
  | None => false
  end.

(** The result of [readPublicEnv]: [{ ok: true, ... }] or
    [{ ok: false, message }]. *)
Inductive PublicEnv :=
  | EnvOk (supabaseUrl supabaseAnonKey : jsstring)
  | EnvError (message : jsstring).

Definition missing_env_message : jsstring :=
  js "Missing env: create web/.env.local and set VITE_SUPABASE_URL and VITE_SUPABASE_ANON_KEY. (Vite only exposes VITE_* variables to the browser.)".

Definition readPublicEnv {U : UrlParser} (e : ViteEnv) : PublicEnv :=
  match readViteSupabaseUrl e, readViteSupabaseAnonKey e with
  | Some supabaseUrl, Some supabaseAnonKey =>
    if negb (isValidHttpUrl supabaseUrl) then
      EnvError (js "Invalid VITE_SUPABASE_URL. It must be a full http(s) URL, e.g. http://localhost:54321 (got: "
                ++ [34%N] ++ supabaseUrl ++ [34%N] ++ js ").")
    else EnvOk supabaseUrl supabaseAnonKey
  | _, _ => EnvError missing_env_message
  end.

(** A client object made by [createClient(url, anonKey, ...)]: it remembers
    its arguments, and [client_id] tells apart the objects of different
    calls. *)
Record Client := {
  client_id : nat;
  client_url : jsstring;
  client_key : jsstring
}.

(** The page's global state: [globalThis.__PBW_SUPABASE__], and how many
    times [createClient] has run. *)
Record Page := {
  slot : option Client;
  created : nat
}.

Definition getSupabaseClient (url anonKey : jsstring) (g : Page) : Client * Page :=
  match slot g with
  | Some c => (c, g)
  | None =>
    let c := {| client_id := created g; client_url := url; client_key := anonKey |} in
    (c, {| slot := Some c; created := S (created g) |})
  end.

(** Successive calls of [getSupabaseClient]. *)
Fixpoint getSupabaseClients (args : list (jsstring * jsstring)) (g : Page)
  : list Client * Page :=
  match args with
  | [] => ([], g)
  | (url, anonKey) :: rest =>
    let (c, g1) := getSupabaseClient url anonKey g in
    let (cs, g2) := getSupabaseClients rest g1 in
    (c :: cs, g2)
  end.

(* ------------------------------------------------------------------ *)
(** ** Browser client: the App component *)

Inductive Mood := chill | social | active | focus | surprise.
Inductive Budget := free | low | medium | high.

Definition mood_value (m : Mood) : value :=
  VStr (js match m with
           | chill => "chill" | social => "social" | active => "active"
           | focus => "focus" | surprise => "surprise"
           end).

Definition budget_value (b : Budget) : value :=
  VStr (js match b with
           | free => "free" | low => "low" | medium => "medium" | high => "high"
           end).

Inductive Tone := tone_high | tone_mid | tone_low.

(** [a >= b] *)
Definition num_geb (a b : number) : bool :=
  negb (is_nan a) && negb (is_nan b) && negb (num_ltb a b).

Definition confidenceTone (confidence : number) : Tone :=
  if num_geb confidence (of_Z 75) then tone_high
  else if num_geb confidence (of_Z 55) then tone_mid
  else tone_low.

(** The number shown on a card:
    [Math.max(0, Math.min(100, Math.round(r.confidence)))]. *)
Definition shownConfidence (r : Recommendation) : number :=
  Math_max (of_Z 0) (Math_min (of_Z 100) (Math_round (confidence r))).

(** The state of [App] that [onRecommend] reads and sets. *)
Record AppState := {
  app_city : jsstring;
  app_mood : Mood;
  app_budget : Budget;
  app_place : PlacePref;
  app_loading : bool;
  app_error : option jsstring;
  app_data : option value
}.

Definition setLoading (b : bool) (st : AppState) : AppState :=
  {| app_city := app_city st; app_mood := app_mood st; app_budget := app_budget st;
     app_place := app_place st; app_loading := b; app_error := app_error st;
     app_data := app_data st |}.

Definition setError (e : option jsstring) (st : AppState) : AppState :=
  {| app_city := app_city st; app_mood := app_mood st; app_budget := app_budget st;
     app_place := app_place st; app_loading := app_loading st; app_error := e;
     app_data := app_data st |}.

Definition setData (d : option value) (st : AppState) : AppState :=
  {| app_city := app_city st; app_mood := app_mood st; app_budget := app_budget st;
     app_place := app_place st; app_loading := app_loading st;
     app_error := app_error st; app_data := d |}.

(** A value caught by [catch (e)]. *)
Inductive thrown :=
  | ThrownError (message : jsstring)   (* [e instanceof Error] *)
  | ThrownString (s : jsstring)        (* [typeof e === "string"] *)
  | ThrownOther.

(** How [supabase.functions.invoke] settles: it rejects, or resolves to
    [{ data, error }] where [error] is [null] or an [Error]. *)
Inductive invoke_result :=
  | InvokeRejected (e : thrown)
  | InvokeResolved (data : value) (error : option jsstring).

(** [{ city: c, preferences: { mood, budget, place } }] *)
Definition invoke_body (c : jsstring) (st : AppState) : value :=
  VObj [(js "city", VStr c);
        (js "preferences",
         VObj [(js "mood", mood_value (app_mood st));
               (js "budget", budget_value (app_budget st));
               (js "place", place_value (Some (app_place st)))])].

Definition unreachable_message : jsstring :=
  js "Could not reach the Edge Function (connection refused). If you're using local Supabase, start Docker, then run `npx supabase start` and `npx supabase functions serve recommend ...`.".

(** The [catch] block of [onRecommend]. *)
Definition reportFailure (e : thrown) (st : AppState) : AppState :=
  let raw :=
    match e with
    | ThrownError m => m
    | ThrownString s => s
    | ThrownOther => js "Unknown error"
    end in
  if includes (js "Failed to send a request to the Edge Function") raw
     || includes (js "ERR_CONNECTION_REFUSED") raw
     || includes (js "ECONNREFUSED") raw
  then setError (Some unreachable_message) st
  else setError (Some (if nonempty raw then raw else js "Something went wrong.")) st.

(** [onRecommend]: the state once the handler has finished, and the bodies
    it passed to [supabase.functions.invoke("recommend", ...)]. *)
Definition onRecommend (env : PublicEnv) (supabase : option Client)
    (invoke : value -> invoke_result) (st : AppState) : AppState * list value :=
  match supabase with
  | None =>
    (setError (Some match env with
                    | EnvOk _ _ => js "Could not create Supabase client."
                    | EnvError m => m
                    end) st, [])
  | Some _ =>
    let c := trim (app_city st) in
    if negb (nonempty c) then (setError (Some (js "City cannot be empty.")) st, [])
    else
      let st1 := setData None (setError None (setLoading true st)) in
      let sent := invoke_body c st in
      let st2 :=
        match invoke sent with
        | InvokeRejected e => reportFailure e st1
        | InvokeResolved data (Some m) => reportFailure (ThrownError m) st1
        | InvokeResolved data None =>
          if negb (truthy data)
          then reportFailure (ThrownError (js "Empty response.")) st1
          else setData (Some data) st1
        end in
      (setLoading false st2, [sent])
  end.

(** The request the Edge Function receives for an invocation: the client
    library posts the body as JSON. *)
Definition invocation (sent : value) : Request :=
  {| method := js "POST"; body := Some sent |}.

(* ------------------------------------------------------------------ *)
(** ** The fallback generator over the object store *)

(** Arrays and objects are references into a store that all the code of the
    isolate shares: whoever holds a reference can write through it, and a
    function can read whatever it can reach. This section follows
    [ruleHintsFromWeather] and [fallbackRecommendations] statement by
    statement, with every object and array they create, read or write, so
    that what a call depends on and what it changes can be stated. A
    reference is the position of its cell; a literal lists the cells of its
    elements before its own, an order no program can observe. *)

Definition loc := nat.

Inductive cell :=
  | CRecommendation (r : Recommendation)   (* [{ title, reason, label, confidence }] *)
  | CArray (elems : list loc)              (* an array of objects *)
  | CNotes (notes : list jsstring)         (* an array of strings *)
  | CFlags (f : Flags)                     (* [{ tooCold, tooHot, tooWindy }] *)
  | CHints (preferIndoor : bool) (notes flags : loc).

Definition Store := list cell.

(** A computation over the store. [None] is a read through a reference that
    does not hold the kind of object the code expects. *)
Definition st (A : Type) : Type := Store -> option (A * Store).

Definition st_ret {A} (a : A) : st A := fun h => Some (a, h).

Definition st_fail {A} : st A := fun _ => None.

Definition st_bind {A B} (m : st A) (k : A -> st B) : st B :=
  fun h => match m h with Some (a, h') => k a h' | None => None end.

Notation "x <== m ;; k" := (st_bind m (fun x => k))
  (at level 61, m at next level, right associativity) : js_scope.

(** A literal or a built-in creates a new object. *)
Definition alloc (c : cell) : st loc := fun h => Some (List.length h, h ++ [c]).

Definition deref (l : loc) : st cell :=
  fun h => match nth_error h l with Some c => Some (c, h) | None => None end.

Definition assign (l : loc) (c : cell) : st unit :=
  fun h => if l <? List.length h
           then Some (tt, firstn l h ++ c :: skipn (S l) h) else None.

(** [notes.push(s)] *)
Definition push (notes : loc) (s : jsstring) : st unit :=
  c <== deref notes ;;
  match c with
  | CNotes l => assign notes (CNotes (l ++ [s]))
  | _ => st_fail
  end.

(** [if (b) m] *)
Definition when (b : bool) (m : st unit) : st unit := if b then m else st_ret tt.

Definition ruleHintsFromWeather_st (w : WeatherSnapshot) : st loc :=
  let tooCold := num_ltb (tempC w) (of_Z 8) in
  let tooHot := num_gtb (tempC w) (of_Z 32) in
  let tooWindy := num_gtb (windMps w) (of_Z 10) in
  let preferIndoor := isRainy w || tooCold || tooHot || tooWindy in
  notes <== alloc (CNotes []) ;;
  _ <== when (isRainy w) (push notes (js "Yağış var: dış mekân önerilerini azalt.")) ;;
  _ <== when tooCold (push notes (js "Soğuk: uzun outdoor aktiviteleri azalt.")) ;;
  _ <== when tooHot (push notes (js "Sıcak: gölge/klimalı seçenekleri artır.")) ;;
  _ <== when tooWindy
          (push notes (js "Rüzgarlı: yürüyüş/park yerine indoor ağırlık ver.")) ;;
  flags <== alloc (CFlags {| tooCold := tooCold; tooHot := tooHot;
                             tooWindy := tooWindy |}) ;;
  alloc (CHints preferIndoor notes flags).

(** [const { preferIndoor } = hints] *)
Definition get_preferIndoor (hints : loc) : st bool :=
  c <== deref hints ;;
  match c with
  | CHints p _ _ => st_ret p
  | _ => st_fail
  end.

(** The object literals of an array literal. *)
Fixpoint alloc_objects (rs : list Recommendation) : st (list loc) :=
  match rs with
  | [] => st_ret []
  | r :: t =>
    l <== alloc (CRecommendation r) ;;
    ls <== alloc_objects t ;;
    st_ret (l :: ls)
  end.

(** [[ {...}, ..., {...} ]] *)
Definition array_literal (rs : list Recommendation) : st loc :=
  ls <== alloc_objects rs ;;
  alloc (CArray ls).

(** The elements of an array. *)
Definition elements (a : loc) : st (list loc) :=
  c <== deref a ;;
  match c with
  | CArray ls => st_ret ls
  | _ => st_fail
  end.

(** The calls of the callback of [a.map(r => ({ ...r, ... }))]: each reads
    an element and creates an object. *)
Fixpoint map_objects (f : Recommendation -> Recommendation) (ls : list loc)
  : st (list loc) :=
  match ls with
  | [] => st_ret []
  | l :: t =>
    c <== deref l ;;
    match c with
    | CRecommendation r =>
      l' <== alloc (CRecommendation (f r)) ;;
      ls' <== map_objects f t ;;
      st_ret (l' :: ls')
    | _ => st_fail
    end
  end.

(** [a.map(r => ({ ...r, ... }))] *)
Definition array_map (f : Recommendation -> Recommendation) (a : loc) : st loc :=
  ls <== elements a ;;
  ls' <== map_objects f ls ;;
  alloc (CArray ls').

(** [[...a, ...b]] *)
Definition array_spread (a b : loc) : st loc :=
  la <== elements a ;;
  lb <== elements b ;;
  alloc (CArray (la ++ lb)).

(** [a.slice(0, n)] *)
Definition array_slice0 (n : nat) (a : loc) : st loc :=
  la <== elements a ;;
  alloc (CArray (firstn n la)).

Definition fallbackRecommendations_st (w : WeatherSnapshot) (place : value) : st loc :=
  hints <== ruleHintsFromWeather_st w ;;
  preferIndoor <== get_preferIndoor hints ;;
  let userTarget := userTarget place in
  let target :=
    if preferIndoor then VStr (js "indoor")
    else coalesce userTarget (VStr (js "outdoor")) in
  indoor <== array_literal indoor_pool ;;
  outdoor <== array_literal outdoor_pool ;;
  base <== array_map reclamp (if is_str target (js "indoor") then indoor else outdoor) ;;
  if preferIndoor && is_str userTarget (js "outdoor") then
    extras <== array_literal (extras w) ;;
    spread <== array_spread base extras ;;
    array_slice0 7 spread
  else st_ret base.

(** The entries an array reference stands for in a store. *)
Fixpoint read_objects (h : Store) (ls : list loc) : option (list Recommendation) :=
  match ls with
  | [] => Some []
  | l :: t =>
    match nth_error h l, read_objects h t with
    | Some (CRecommendation r), Some rs => Some (r :: rs)
    | _, _ => None
    end
  end.

Definition read_array (h : Store) (a : loc) : option (list Recommendation) :=
  match nth_error h a with
  | Some (CArray ls) => read_objects h ls
  | _ => None
  end.

(** The references a caller gets with the array [a]: the array and its
    elements. *)
Definition reachable (h : Store) (a : loc) : list loc :=
  match nth_error h a with
  | Some (CArray ls) => a :: ls
  | _ => [a]
  end.

(** The cells of a new array of the entries [rs] at the end of [h]. *)
Definition array_cells (h : Store) (rs : list Recommendation) : Store :=
  map CRecommendation rs ++ [CArray (seq (List.length h) (List.length rs))].

(** In [h] the reference [a] is an array whose elements [ls] are the
    entries [rs]. *)
Definition holds (h : Store) (a : loc) (ls : list loc) (rs : list Recommendation) : Prop :=
  nth_error h a = Some (CArray ls)
  /\ Forall2 (fun l r => nth_error h l = Some (CRecommendation r)) ls rs.

(* ------------------------------------------------------------------ *)
(** ** Vocabulary of the statements *)

(** All entries carry the same label. *)
Definition uniform_label (l : list Recommendation) : Prop :=
  exists lab, Forall (fun r => label r = lab) l.

(** The string a label is serialised as. *)
Definition label_value (l : Label) : value :=
  match l with
  | indoor => VStr (js "indoor")
  | outdoor => VStr (js "outdoor")
  end.

(** [null], [undefined], booleans, numbers and strings. *)
Definition is_primitive (v : value) : bool :=
  match v with VArr _ | VObj _ => false | _ => true end.

(** The arguments the handler passes to [callOpenAI] for a body, a trimmed
    city and a snapshot. *)
Definition model_args (W : World) (b : value) (city : jsstring) (w : WeatherSnapshot)
  : OpenAIArgs :=
  {| apiKey := env_or W "OPENAI_API_KEY" [];
     model := env_or W "OPENAI_MODEL" (js "gpt-4.1-mini");
     req := {| req_city := city; req_preferences := own b (js "preferences") |};
     weather := w |}.

(** The pool that [target === "indoor" ? indoor : outdoor] selects. *)
Definition pool_for (t : value) : list Recommendation :=
  if is_str t (js "indoor") then indoor_pool else outdoor_pool.

(** Numbers in ranking order: each is at least the next. *)
Fixpoint descending (l : list number) : bool :=
  match l with
  | a :: (b :: _) as t => num_geb a b && descending t
  | _ => true
  end.

(** The bounds of the JSON schema sent to the model, with the lengths
    counted in UTF-16 code units, as [length] and [slice] count them. The
    schema itself counts characters: the two agree on text of the Basic
    Multilingual Plane, and a character outside it takes two code units. *)
Definition within_schema (r : Recommendation) : Prop :=
  2 <= List.length (title r) <= 60
  /\ 10 <= List.length (reason r) <= 140
  /\ int_between 0 100 (confidence r).

(** What [callOpenAI] leaves untouched: a title that [slice(0, 60)] keeps
    whole, a reason that [slice(0, 140)] keeps whole, and a confidence that
    [clampInt] returns as it is. *)
Definition within_limits (r : Recommendation) : Prop :=
  List.length (title r) <= 60
  /\ List.length (reason r) <= 140
  /\ int_between 0 100 (confidence r).

(** A value [String] and [Number] convert without throwing: anything but
    an object with an own property named [toString], and but an array that
    holds, at any depth, such an object. *)
Fixpoint convertible (v : value) : bool :=
  match v with
  | VObj ps => match assoc (js "toString") ps with Some _ => false | None => true end
  | VArr l => forallb convertible l
  | _ => true
  end.

(** The element has the three fields [callOpenAI] converts in a form that
    converts: it is neither [null] nor [undefined], and its title, reason
    and confidence are [convertible]. *)
Definition mappable (it : value) : bool :=
  negb (is_nullish it)
  && convertible (own it (js "title"))
  && convertible (own it (js "reason"))
  && convertible (own it (js "confidence")).

(** The element of a reply that spells out the entry [r]. *)
Definition spells (it : value) (r : Recommendation) : Prop :=
  own it (js "title") = VStr (title r)
  /\ own it (js "reason") = VStr (reason r)
  /\ own it (js "label") = label_value (label r)
  /\ own it (js "confidence") = VNum (confidence r).

(** [data?.weather?.[0]?.main || data?.weather?.[0]?.description || "unknown"],
    the value [fetchOpenWeather] converts to the condition text. *)
Definition condition_value (data : value) : value :=
  let first := opt_index (opt_get data (js "weather")) 0 in
  or_else (or_else (opt_get first (js "main")) (opt_get first (js "description")))
          (VStr (js "unknown")).

(** How many of the booleans hold. *)
Definition count_true (bs : list bool) : nat :=
  List.length (filter (fun b => b) bs).

(* ------------------------------------------------------------------ *)
(** ** Scenario data *)

Definition decimal (z : Z) : jsstring :=
  js (DecimalString.NilZero.string_of_int (Z.to_int z)).

(** The JSON text of a value whose numbers are integers and whose strings
    need no escapes. *)
Fixpoint json_text (v : value) : jsstring :=
  match v with
  | VUndefined | VNull => js "null"
  | VBool b => if b then js "true" else js "false"
  | VNum (Fin q) => decimal (Qfloor q)
  | VNum _ => js "null"
  | VStr s => [34%N] ++ s ++ [34%N]
  | VArr l =>
    js "["
    ++ (fix items (l : list value) : jsstring :=
          match l with
          | [] => []
          | [x] => json_text x
          | x :: t => json_text x ++ js "," ++ items t
          end) l
    ++ js "]"
  | VObj ps =>
    js "{"
    ++ (fix members (ps : list (jsstring * value)) : jsstring :=
          match ps with
          | [] => []
          | [(k, x)] => [34%N] ++ k ++ [34%N] ++ js ":" ++ json_text x
          | (k, x) :: t =>
            [34%N] ++ k ++ [34%N] ++ js ":" ++ json_text x ++ js "," ++ members t
          end) ps
    ++ js "}"
  end.

(** A runtime for worked scenarios: it prints integers in decimal, reads
    strings of decimal digits, and parses the one text a scenario's
    provider sends, the JSON text of [parsed]. Scenarios consult it on
    nothing else. *)
Definition scenario_runtime (parsed : value) : Runtime :=
  {| number_to_string := fun n =>
       match n with
       | NaN => js "NaN"
       | PosInf => js "Infinity"
       | NegInf => js "-Infinity"
       | Fin q => decimal (Qfloor q)
       end;
     string_numeric_value := fun s =>
       of_Z (Z.of_N (fold_left (fun acc c => acc * 10 + (c - 48))%N s 0%N));
     JSON_parse := fun s =>
       if str_eqb s (json_text parsed) then Some parsed else None |}.

Definition snapshot (t wind : Q) (rain : bool) : WeatherSnapshot :=
  {| provider := openweather; city := js "Istanbul"; tempC := Fin t;
     windMps := Fin wind; condition := js "Clouds"; isRainy := rain |}.

(** A provider reply of status 200 whose [output_text] is the JSON text of
    [parsed]. *)
Definition completion (parsed : value) : fetch_result :=
  FetchResolved
    {| res_status := 200; res_statusText := js "OK";
       res_text := None;
       res_json := Some (VObj [(js "output_text", VStr (json_text parsed))]) |}.

(** A deployment with both credentials, a weather client that reports [w]
    and a model provider that answers [answer]. *)
Definition scenario_world (w : WeatherSnapshot) (answer : fetch_result) : World :=
  {| env_get := fun name =>
       if str_eqb name (js "WEATHER_API_KEY") then Some (js "weather-key")
       else if str_eqb name (js "OPENAI_API_KEY") then Some (js "model-key")
       else None;
     fetchOpenWeather := fun _ _ => WeatherOk w;
     fetch_openai := fun _ => answer |}.

(** [POST] with body [{ city, preferences: { place } }]. *)
Definition post (city place : string) : Request :=
  {| method := js "POST";
     body := Some (VObj [(js "city", VStr (js city));
                         (js "preferences", VObj [(js "place", VStr (js place))])]) |}.

Definition item (t r l : string) (c : value) : value :=
  VObj [(js "title", VStr (js t)); (js "reason", VStr (js r));
        (js "label", VStr (js l)); (js "confidence", c)].

Definition reply_of (items : list value) : value :=
  VObj [(js "recommendations", VArr items)].

(** A provider that answers with HTTP 500 (scenario E). *)
Definition provider_down : fetch_result :=
  FetchResolved
    {| res_status := 500; res_statusText := js "Internal Server Error";
       res_text := Some (js "upstream failure"); res_json := None |}.

(** Replies that do not honour the schema. *)
Definition empty_reply : value := reply_of [].

Definition park_item : value :=
  item "Picnic" "Sunny afternoon outside" "park" (VNum (of_Z 80)).

Definition vague_item : value :=
  item "Walk" "Fresh air today" "outdoor" (VStr (js "high")).

Definition mild : WeatherSnapshot := snapshot 22 2 false.

(** An element whose title is an object and whose confidence is an array. *)
Definition boxed_item : value :=
  VObj [(js "title", VObj []); (js "label", VStr (js "outdoor"));
        (js "confidence", VArr [VNum (of_Z 75)])].

(** An element whose title has an own property named [toString]. *)
Definition shadowing_item : value :=
  VObj [(js "title", VObj [(js "toString", VNum (of_Z 1))])].

(** A weather provider reply of status 200 with JSON body [data]. *)
Definition weather_reply (data : value) : fetch_result :=
  FetchResolved
    {| res_status := 200; res_statusText := js "OK";
       res_text := None; res_json := Some data |}.

(** 21.5 degrees, wind 3 m/s, condition "Rain". *)
Definition rainy_payload : value :=
  VObj [(js "main", VObj [(js "temp", VNum (Fin (43 # 2)))]);
        (js "wind", VObj [(js "speed", VNum (Fin 3))]);
        (js "weather", VArr [VObj [(js "main", VStr (js "Rain"));
                                   (js "description", VStr (js "light rain"))]])].

(** The same reading with a [null] temperature. *)
Definition null_temp_payload : value :=
  VObj [(js "main", VObj [(js "temp", VNull)]);
        (js "wind", VObj [(js "speed", VNum (Fin 3))]);
        (js "weather", VArr [VObj [(js "main", VStr (js "Clear"))]])].

(** What [fetchOpenWeather] makes of [rainy_payload] for a city. *)
Definition rainy_snapshot (city : jsstring) : WeatherSnapshot :=
  {| provider := openweather; city := city; tempC := Fin (43 # 2);
     windMps := Fin 3; condition := js "Rain"; isRainy := true |}.

(** A deployment with both credentials whose weather provider always sends
    [rainy_payload], so that the weather client returns [rainy_snapshot]
    for every city, and whose model provider answers [answer]. *)
Definition rainy_world (answer : fetch_result) : World :=
  {| env_get := fun name =>
       if str_eqb name (js "WEATHER_API_KEY") then Some (js "weather-key")
       else if str_eqb name (js "OPENAI_API_KEY") then Some (js "model-key")
       else None;
     fetchOpenWeather := fun city _ => WeatherOk (rainy_snapshot city);
     fetch_openai := fun _ => answer |}.

(** A deployment with the given keys, a weather client that always
    answers [weather] and a model provider that always answers [answer]. *)
Definition deployment (weatherKey modelKey : option jsstring)
    (weather : weather_result) (answer : fetch_result) : World :=
  {| env_get := fun name =>
       if str_eqb name (js "WEATHER_API_KEY") then weatherKey
       else if str_eqb name (js "OPENAI_API_KEY") then modelKey
       else None;
     fetchOpenWeather := fun _ _ => weather;
     fetch_openai := fun _ => answer |}.

(** 31 times U+1F600, each a surrogate pair. *)
Definition astral_title : jsstring :=
  List.concat (repeat [55357%N; 56832%N] 31).

(** A reply that honours the schema, and the list it spells out. *)
Definition picnic : Recommendation :=
  {| title := js "Picnic"; reason := js "Sunny afternoon outside";
     label := outdoor; confidence := of_Z 80 |}.

Definition picnic_item : value :=
  item "Picnic" "Sunny afternoon outside" "outdoor" (VNum (of_Z 80)).

(** The same text in the provider's other reply shape. *)
Definition nested_completion (parsed : value) : Response :=
  {| res_status := 200; res_statusText := js "OK"; res_text := None;
     res_json :=
       Some (VObj [(js "output",
                    VArr [VObj [(js "content",
                                 VArr [VObj [(js "text",
                                              VStr (json_text parsed))]])]])]) |}.

Definition flat_completion (parsed : value) : Response :=
  {| res_status := 200; res_statusText := js "OK"; res_text := None;
     res_json := Some (VObj [(js "output_text", VStr (json_text parsed))]) |}.

(** A URL parser that knows the local Supabase address only. *)
Definition local_urls : UrlParser :=
  {| URL_protocol := fun s =>
       if str_eqb s (js "http://localhost:54321") then Some (js "http:") else None |}.

Definition local_env : ViteEnv :=
  {| VITE_SUPABASE_URL := VStr (js " http://localhost:54321 ");
     VITE_SUPABASE_ANON_KEY := VStr (js "anon-key") |}.

Definition fresh_page : Page := {| slot := None; created := 0 |}.

(** The page as it starts, with a city typed in. *)
Definition typed (c : string) : AppState :=
  {| app_city := js c; app_mood := chill; app_budget := low; app_place := place_either;
     app_loading := false; app_error := None; app_data := None |}.

Definition a_client : Client :=
  {| client_id := 0; client_url := js "http://localhost:54321";
     client_key := js "anon-key" |}.

(* ------------------------------------------------------------------ *)
(** ** Strings and numbers: basic facts *)

Lemma str_eqb_eq a b : str_eqb a b = true <-> a = b.
Proof.
  revert b; induction a as [|x a IH]; intros [|y b]; simpl;
    try (split; [discriminate | congruence]); try tauto.
  rewrite andb_true_iff, N.eqb_eq, IH. split.
  - intros [-> ->]; reflexivity.
  - intros H; injection H; auto.
Qed.

Lemma str_eqb_refl a : str_eqb a a = true.
Proof. apply str_eqb_eq; reflexivity. Qed.

Lemma num_ltb_spec a b : num_ltb a b = true <-> num_lt a b.
Proof.
  destruct a as [| | |x], b as [| | |y]; simpl;
    try (split; [discriminate | intros H; inversion H]);
    try (split; [constructor | reflexivity]).
  destruct (x ?= y)%Q eqn:E; split; intros H; try discriminate; try reflexivity.
  - inversion H as [? ? L| | |]; subst. apply (proj1 (Qlt_alt _ _)) in L. congruence.
  - constructor. apply (proj2 (Qlt_alt _ _)); assumption.
  - inversion H as [? ? L| | |]; subst. apply (proj1 (Qlt_alt _ _)) in L. congruence.
Qed.

Lemma num_ltb_of_Z a b : num_ltb (of_Z a) (of_Z b) = (a <? b)%Z.
Proof.
  unfold of_Z, num_ltb, Qcompare, inject_Z; simpl.
  rewrite !Z.mul_1_r. unfold Z.ltb. destruct (a ?= b)%Z; reflexivity.
Qed.

Lemma Math_min_of_Z a b : Math_min (of_Z a) (of_Z b) = of_Z (Z.min a b).
Proof.
  unfold Math_min. change (is_nan (of_Z a) || is_nan (of_Z b)) with false.
  cbv iota. rewrite num_ltb_of_Z.
  destruct (Z.ltb_spec b a); f_equal; lia.
Qed.

Lemma Math_max_of_Z a b : Math_max (of_Z a) (of_Z b) = of_Z (Z.max a b).
Proof.
  unfold Math_max. change (is_nan (of_Z a) || is_nan (of_Z b)) with false.
  cbv iota. rewrite num_ltb_of_Z.
  destruct (Z.ltb_spec a b); f_equal; lia.
Qed.

(** [clampInt(n, 0, 100)] is an integer of [0, 100] for every number but
    [NaN], which it returns unchanged. *)
Lemma clampInt_range n :
  n <> NaN -> int_between 0 100 (clampInt n (of_Z 0) (of_Z 100)).
Proof.
  intros Hn. unfold clampInt. destruct n as [| | |q].
  - congruence.
  - exists 100%Z. split; [reflexivity | lia].
  - exists 0%Z. split; [reflexivity | lia].
  - change (Math_round (Fin q)) with (of_Z (Qfloor (q + (1 # 2)))).
    rewrite Math_min_of_Z, Math_max_of_Z.
    eexists; split; [reflexivity | lia].
Qed.

Lemma clampInt_nan : clampInt NaN (of_Z 0) (of_Z 100) = NaN.
Proof. reflexivity. Qed.

Lemma clampInt_of_Z z :
  (0 <= z <= 100)%Z -> clampInt (of_Z z) (of_Z 0) (of_Z 100) = of_Z z.
Proof.
  intros Hz. unfold clampInt.
  change (Math_round (of_Z z)) with (of_Z (Qfloor (inject_Z z + (1 # 2)))).
  assert (E : Qfloor (inject_Z z + (1 # 2)) = z).
  { unfold Qfloor, Qplus, inject_Z. cbn [Qnum Qden].
    change (Z.pos (1 * 2)) with 2%Z. change (1 * 1)%Z with 1%Z.
    rewrite Z.div_add_l by lia. change (1 / 2)%Z with 0%Z. lia. }
  rewrite E, Math_min_of_Z, Math_max_of_Z. f_equal. lia.
Qed.

(* ------------------------------------------------------------------ *)
(** ** Rule evaluator *)

(** C1. For every snapshot, [tooCold] holds iff the temperature is below 8,
    [tooHot] iff it is above 32, [tooWindy] iff the wind speed is above 10,
    and [preferIndoor] is exactly the disjunction of [isRainy] and these
    three flags: no flag is weighted against another. *)
Theorem preferIndoor_is_disjunction (w : WeatherSnapshot) :
  let h := ruleHintsFromWeather w in
  (tooCold (flags h) = true <-> num_lt (tempC w) (of_Z 8))
  /\ (tooHot (flags h) = true <-> num_lt (of_Z 32) (tempC w))
  /\ (tooWindy (flags h) = true <-> num_lt (of_Z 10) (windMps w))
  /\ preferIndoor h
     = isRainy w || tooCold (flags h) || tooHot (flags h) || tooWindy (flags h)
  /\ (preferIndoor h = true <->
      isRainy w = true \/ tooCold (flags h) = true
      \/ tooHot (flags h) = true \/ tooWindy (flags h) = true).
Proof.
  cbn zeta. unfold ruleHintsFromWeather; cbn [preferIndoor flags tooCold tooHot tooWindy].
  unfold num_gtb. repeat split; try apply num_ltb_spec.
  - rewrite !orb_true_iff. tauto.
  - rewrite !orb_true_iff. tauto.
Qed.

(** A day inside all three thresholds and without rain has no indoor bias. *)
Lemma mild_weather_prefers_outdoor (w : WeatherSnapshot) (t wind : Q) :
  tempC w = Fin t -> windMps w = Fin wind ->
  (8 <= t)%Q -> (t <= 32)%Q -> (wind <= 10)%Q -> isRainy w = false ->
  preferIndoor (ruleHintsFromWeather w) = false.
Proof.
  intros Ht Hw H8 H32 H10 Hr.
  unfold ruleHintsFromWeather; cbn [preferIndoor]. unfold num_gtb.
  rewrite Ht, Hw, Hr. cbn [orb].
  rewrite !orb_false_iff. repeat split;
    match goal with |- ?b = false => destruct b eqn:E; [|reflexivity] end;
    apply num_ltb_spec in E; inversion E as [? ? L| | |]; subst;
    [apply Qle_not_lt in H8 | apply Qle_not_lt in H32 | apply Qle_not_lt in H10];
    contradiction.
Qed.

(* ------------------------------------------------------------------ *)
(** ** Fallback generator *)

Lemma reclamp_indoor_pool : map reclamp indoor_pool = indoor_pool.
Proof. reflexivity. Qed.

Lemma reclamp_outdoor_pool : map reclamp outdoor_pool = outdoor_pool.
Proof. reflexivity. Qed.

Lemma is_str_true v s : is_str v s = true -> v = VStr s.
Proof.
  destruct v; simpl; try discriminate. intros H. apply str_eqb_eq in H. congruence.
Qed.

(** [userTarget === lit] is [place === lit] for a literal other than
    ["either"]. *)
Lemma userTarget_is_str place lit :
  nonempty lit = true -> str_eqb lit (js "either") = false ->
  is_str (userTarget place) lit = is_str place lit.
Proof.
  intros Hne Hlit. unfold userTarget.
  destruct (is_str place lit) eqn:E.
  - apply is_str_true in E. subst place. simpl. rewrite Hne, Hlit. simpl.
    apply str_eqb_refl.
  - destruct (truthy place && negb (is_str place (js "either"))); [assumption|reflexivity].
Qed.

(** The four paths of the fallback generator. *)
Lemma fallbackRecommendations_cases (w : WeatherSnapshot) (place : value) :
  fallbackRecommendations w place =
  if preferIndoor (ruleHintsFromWeather w)
  then if is_str place (js "outdoor") then indoor_pool ++ extras w else indoor_pool
  else if is_str place (js "indoor") then indoor_pool else outdoor_pool.
Proof.
  unfold fallbackRecommendations, target.
  rewrite (userTarget_is_str place (js "outdoor")) by reflexivity.
  destruct (preferIndoor (ruleHintsFromWeather w)).
  - change (is_str (VStr (js "indoor")) (js "indoor")) with true. cbv iota.
    rewrite reclamp_indoor_pool. cbn [andb].
    destruct (is_str place (js "outdoor")); reflexivity.
  - cbn [andb]. cbv iota.
    assert (E : is_str (coalesce (userTarget place) (VStr (js "outdoor"))) (js "indoor")
                = is_str place (js "indoor")).
    { rewrite <- (userTarget_is_str place (js "indoor")) by reflexivity.
      unfold coalesce. destruct (userTarget place); reflexivity. }
    rewrite E. destruct (is_str place (js "indoor"));
      [apply reclamp_indoor_pool | apply reclamp_outdoor_pool].
Qed.

(** Case analysis on the weather bias and on the place literal that matters
    under it. *)
Ltac pool_cases w place :=
  destruct (preferIndoor (ruleHintsFromWeather w));
  [destruct (is_str place (js "outdoor")) | destruct (is_str place (js "indoor"))].

(** C4. The fallback output has exactly 5 entries of one label, except when
    the weather prefers indoor and the user asked for outdoor: then it is
    the 5 indoor entries followed by 2 outdoor entries of confidence 45 and
    42 whose reason is the safety note chosen by [isRainy], 7 entries in
    all, and this is the only case where labels are mixed. *)
Theorem fallback_shape (w : WeatherSnapshot) (place : value) :
  let out := fallbackRecommendations w place in
  if preferIndoor (ruleHintsFromWeather w) && is_str place (js "outdoor")
  then out = indoor_pool ++ extras w
       /\ List.length out = 7
       /\ map label out = [indoor; indoor; indoor; indoor; indoor; outdoor; outdoor]
       /\ map confidence (extras w) = [of_Z 45; of_Z 42]
       /\ map reason (extras w) = [safetyNote w; safetyNote w]
       /\ safetyNote w
          = (if isRainy w
             then js "It’s rainy—bring a jacket/umbrella and keep it short."
             else js "Weather is not ideal—keep it short and flexible.")
       /\ ~ uniform_label out
  else List.length out = 5
       /\ (out = indoor_pool \/ out = outdoor_pool)
       /\ uniform_label out.
Proof.
  cbn zeta. rewrite fallbackRecommendations_cases.
  pool_cases w place; cbn [andb].
  - repeat split.
    intros [lab H]. apply Forall_app in H. destruct H as [H1 H2].
    unfold indoor_pool in H1. unfold extras in H2.
    inversion H1 as [|? ? A _]. inversion H2 as [|? ? B _].
    cbn [label rec] in A, B. congruence.
  - repeat split; [left; reflexivity|].
    exists indoor. repeat constructor.
  - repeat split; [left; reflexivity|].
    exists indoor. repeat constructor.
  - repeat split; [right; reflexivity|].
    exists outdoor. repeat constructor.
Qed.

(** C5. The base pool is chosen by [target]: indoor when the weather
    prefers indoor; otherwise the user's place when it is indoor or
    outdoor; otherwise (absent or "either") outdoor. The output is that
    pool, followed by the two warning entries only for an explicit outdoor
    request; with "either" and adverse weather it is the indoor pool
    alone. *)
Theorem fallback_target_selection (w : WeatherSnapshot) (p : option PlacePref) :
  let bad := preferIndoor (ruleHintsFromWeather w) in
  userTarget (place_value p)
  = match p with
    | Some place_indoor => VStr (js "indoor")
    | Some place_outdoor => VStr (js "outdoor")
    | Some place_either | None => VNull
    end
  /\ target w (place_value p)
     = (if bad then VStr (js "indoor")
        else match p with
             | Some place_indoor => VStr (js "indoor")
             | Some place_outdoor => VStr (js "outdoor")
             | Some place_either | None => VStr (js "outdoor")
             end)
  /\ fallbackRecommendations w (place_value p)
     = pool_for (target w (place_value p))
       ++ (if bad then match p with Some place_outdoor => extras w | _ => [] end
           else [])
  /\ fallbackRecommendations w (VStr (js "either"))
     = (if bad then indoor_pool else outdoor_pool).
Proof.
  cbn zeta. rewrite !fallbackRecommendations_cases. unfold target.
  destruct (preferIndoor (ruleHintsFromWeather w));
    destruct p as [[| |]|]; repeat split.
Qed.

(** *** The fallback generator over the store *)

Lemma nth_error_fresh (h ext : Store) (k : nat) :
  nth_error (h ++ ext) (List.length h + k) = nth_error ext k.
Proof.
  rewrite nth_error_app2 by lia. f_equal. lia.
Qed.

Lemma nth_error_frame (h ext : Store) (l : loc) (c : cell) :
  nth_error h l = Some c -> nth_error (h ++ ext) l = Some c.
Proof.
  intros H. rewrite nth_error_app1; [exact H|].
  apply nth_error_Some. congruence.
Qed.

Lemma holds_frame (h ext : Store) a ls rs :
  holds h a ls rs -> holds (h ++ ext) a ls rs.
Proof.
  intros [Ha Hl]. split; [apply nth_error_frame, Ha|].
  eapply Forall2_impl; [|exact Hl]. intros l r. apply nth_error_frame.
Qed.

Lemma holds_read (h : Store) a ls rs : holds h a ls rs -> read_array h a = Some rs.
Proof.
  intros [Ha Hl]. unfold read_array. rewrite Ha. clear Ha.
  induction Hl as [|l r ls rs Hr _ IH]; simpl; [reflexivity|].
  rewrite Hr, IH. reflexivity.
Qed.

Lemma holds_reachable (h : Store) a ls rs : holds h a ls rs -> reachable h a = a :: ls.
Proof. intros [Ha _]. unfold reachable. rewrite Ha. reflexivity. Qed.

Lemma st_bind_some {A B} (m : st A) (k : A -> st B) (h h' : Store) (a : A) :
  m h = Some (a, h') -> st_bind m k h = k a h'.
Proof. intros H. unfold st_bind. rewrite H. reflexivity. Qed.

Lemma alloc_objects_spec (rs : list Recommendation) (h : Store) :
  alloc_objects rs h
  = Some (seq (List.length h) (List.length rs), h ++ map CRecommendation rs).
Proof.
  revert h; induction rs as [|r rs IH]; intros h; simpl.
  - unfold st_ret. rewrite app_nil_r. reflexivity.
  - unfold st_bind, alloc at 1. rewrite IH. unfold st_ret.
    rewrite length_app, <- app_assoc. simpl.
    replace (List.length h + 1) with (S (List.length h)) by lia. reflexivity.
Qed.

Lemma array_literal_spec (rs : list Recommendation) (h : Store) :
  array_literal rs h = Some (List.length h + List.length rs, h ++ array_cells h rs).
Proof.
  unfold array_literal. rewrite (@st_bind_some _ _ _ _ _ _ _ (alloc_objects_spec rs h)).
  unfold alloc, array_cells. rewrite length_app, length_map, <- app_assoc. reflexivity.
Qed.

Lemma objects_at (pre post : Store) (rs : list Recommendation) :
  Forall2 (fun l r => nth_error (pre ++ map CRecommendation rs ++ post) l
                      = Some (CRecommendation r))
          (seq (List.length pre) (List.length rs)) rs.
Proof.
  revert pre; induction rs as [|r rs IH]; intros pre; simpl; constructor.
  - rewrite nth_error_app2 by lia. rewrite Nat.sub_diag. reflexivity.
  - specialize (IH (pre ++ [CRecommendation r])).
    rewrite length_app, <- app_assoc in IH. simpl in IH.
    replace (List.length pre + 1) with (S (List.length pre)) in IH by lia. exact IH.
Qed.

Lemma holds_array_cells (h : Store) (rs : list Recommendation) :
  holds (h ++ array_cells h rs) (List.length h + List.length rs)
        (seq (List.length h) (List.length rs)) rs.
Proof.
  split.
  - rewrite nth_error_fresh. unfold array_cells.
    rewrite nth_error_app2 by (rewrite length_map; lia).
    rewrite length_map, Nat.sub_diag. reflexivity.
  - apply objects_at.
Qed.

Lemma map_objects_spec (f : Recommendation -> Recommendation) ls rs :
  forall h, Forall2 (fun l r => nth_error h l = Some (CRecommendation r)) ls rs ->
  map_objects f ls h
  = Some (seq (List.length h) (List.length rs), h ++ map CRecommendation (map f rs)).
Proof.
  intros h H; revert h H. revert rs.
  induction ls as [|l ls IH]; intros rs h H; inversion H as [|? r ? rs' Hl Hrest]; subst; simpl.
  - unfold st_ret. rewrite app_nil_r. reflexivity.
  - unfold st_bind at 1. unfold deref. rewrite Hl.
    unfold st_bind, alloc at 1.
    rewrite (IH rs' (h ++ [CRecommendation (f r)])).
    + unfold st_ret. rewrite length_app, <- app_assoc. simpl.
      replace (List.length h + 1) with (S (List.length h)) by lia. reflexivity.
    + eapply Forall2_impl; [|exact Hrest]. intros ? ?. apply nth_error_frame.
Qed.

Lemma elements_spec (h : Store) a ls rs :
  holds h a ls rs -> elements a h = Some (ls, h).
Proof. intros [Ha _]. unfold elements, st_bind, deref. rewrite Ha. reflexivity. Qed.

Lemma array_map_spec (f : Recommendation -> Recommendation) (h : Store) a ls rs :
  holds h a ls rs ->
  array_map f a h
  = Some (List.length h + List.length rs, h ++ array_cells h (map f rs)).
Proof.
  intros H. unfold array_map.
  rewrite (@st_bind_some _ _ _ _ _ _ _ (@elements_spec _ _ _ _ H)).
  rewrite (@st_bind_some _ _ _ _ _ _ _ (@map_objects_spec f _ _ _ (proj2 H))).
  unfold alloc, array_cells. rewrite length_app, !length_map, <- app_assoc. reflexivity.
Qed.

Lemma array_spread_spec (h : Store) a la ra b lb rb :
  holds h a la ra -> holds h b lb rb ->
  array_spread a b h = Some (List.length h, h ++ [CArray (la ++ lb)])
  /\ holds (h ++ [CArray (la ++ lb)]) (List.length h) (la ++ lb) (ra ++ rb).
Proof.
  intros Ha Hb. split.
  - unfold array_spread.
    rewrite (@st_bind_some _ _ _ _ _ _ _ (@elements_spec _ _ _ _ Ha)), (@st_bind_some _ _ _ _ _ _ _ (@elements_spec _ _ _ _ Hb)).
    reflexivity.
  - split.
    + rewrite <- (Nat.add_0_r (List.length h)), nth_error_fresh. reflexivity.
    + apply Forall2_app;
        (eapply Forall2_impl; [|apply Ha || apply Hb]); intros ? ?; apply nth_error_frame.
Qed.

Lemma Forall2_firstn {A B} (R : A -> B -> Prop) (n : nat) la lb :
  Forall2 R la lb -> Forall2 R (firstn n la) (firstn n lb).
Proof.
  intros H; revert n; induction H; intros [|n]; simpl; constructor; auto.
Qed.

Lemma array_slice0_spec (n : nat) (h : Store) a la ra :
  holds h a la ra ->
  array_slice0 n a h = Some (List.length h, h ++ [CArray (firstn n la)])
  /\ holds (h ++ [CArray (firstn n la)]) (List.length h) (firstn n la) (firstn n ra).
Proof.
  intros Ha. split.
  - unfold array_slice0. rewrite (@st_bind_some _ _ _ _ _ _ _ (@elements_spec _ _ _ _ Ha)). reflexivity.
  - split.
    + rewrite <- (Nat.add_0_r (List.length h)), nth_error_fresh. reflexivity.
    + apply Forall2_firstn. eapply Forall2_impl; [|apply Ha].
      intros ? ?; apply nth_error_frame.
Qed.

Lemma when_push (b : bool) (s : jsstring) (h : Store) (n : list jsstring) :
  when b (push (List.length h) s) (h ++ [CNotes n])
  = Some (tt, h ++ [CNotes (n ++ if b then [s] else [])]).
Proof.
  destruct b; simpl.
  - assert (E : skipn (S (List.length h)) (h ++ [CNotes n]) = [])
      by (apply skipn_all2; rewrite length_app; simpl; lia).
    unfold push, st_bind, deref.
    rewrite <- (Nat.add_0_r (List.length h)) at 1. rewrite nth_error_fresh.
    cbn [nth_error]. unfold assign. rewrite E, length_app.
    destruct (Nat.ltb_spec (List.length h) (List.length h + List.length [CNotes n]))
      as [_|L]; [|simpl in L; lia].
    rewrite firstn_app, firstn_all, Nat.sub_diag. simpl. rewrite app_nil_r.
    reflexivity.
  - unfold st_ret. rewrite app_nil_r. reflexivity.
Qed.

(** Over the store, the rule evaluator creates three objects, the notes,
    the flags and the hints it returns, which hold what the evaluator
    computes; it reads and writes no other cell. *)
Lemma ruleHintsFromWeather_st_spec (w : WeatherSnapshot) (h : Store) :
  let hints := ruleHintsFromWeather w in
  ruleHintsFromWeather_st w h
  = Some (List.length h + 2,
          h ++ [CNotes (notes hints); CFlags (flags hints);
                CHints (preferIndoor hints) (List.length h) (List.length h + 1)]).
Proof.
  unfold ruleHintsFromWeather_st, ruleHintsFromWeather; cbn zeta.
  cbn [notes flags preferIndoor].
  generalize (num_ltb (tempC w) (of_Z 8)) (num_gtb (tempC w) (of_Z 32))
             (num_gtb (windMps w) (of_Z 10)) (isRainy w).
  intros cold hot windy rainy.
  unfold st_bind at 1. unfold alloc at 1.
  rewrite (@st_bind_some _ _ _ _ _ _ _ (when_push _ _ h _)).
  rewrite (@st_bind_some _ _ _ _ _ _ _ (when_push _ _ h _)).
  rewrite (@st_bind_some _ _ _ _ _ _ _ (when_push _ _ h _)).
  rewrite (@st_bind_some _ _ _ _ _ _ _ (when_push _ _ h _)).
  unfold st_bind, alloc. rewrite !length_app. cbn [List.length].
  rewrite <- !app_assoc. cbn [app].
  replace (List.length h + 1 + 1) with (List.length h + 2) by lia.
  reflexivity.
Qed.

Lemma get_preferIndoor_spec (h : Store) (k : nat) (ext : Store) p n f :
  nth_error ext k = Some (CHints p n f) ->
  get_preferIndoor (List.length h + k) (h ++ ext) = Some (p, h ++ ext).
Proof.
  intros H. unfold get_preferIndoor, st_bind, deref.
  rewrite nth_error_fresh, H. reflexivity.
Qed.

Lemma Forall_seq_ge (n m k : nat) : n <= m -> Forall (fun l => n <= l) (seq m k).
Proof.
  intros H. apply Forall_forall. intros l Hl. apply in_seq in Hl. lia.
Qed.

Lemma Forall_firstn_keep {A} (P : A -> Prop) (n : nat) (l : list A) :
  Forall P l -> Forall P (firstn n l).
Proof.
  intros H; revert n; induction H; intros [|n]; simpl; constructor; auto.
Qed.

(** Over any store, a call of the fallback generator returns a new array of
    new objects that hold the entries of [fallbackRecommendations], and
    leaves every cell that existed as it was. *)
Lemma fallbackRecommendations_st_spec (w : WeatherSnapshot) (place : value) (h : Store) :
  exists a ls new,
    fallbackRecommendations_st w place h = Some (a, h ++ new)
    /\ holds (h ++ new) a ls (fallbackRecommendations w place)
    /\ Forall (fun l => List.length h <= l) (a :: ls).
Proof.
  unfold fallbackRecommendations_st.
  rewrite (@st_bind_some _ _ _ _ _ _ _ (ruleHintsFromWeather_st_spec w h)).
  set (hints := ruleHintsFromWeather w).
  set (R := [CNotes (notes hints); CFlags (flags hints);
             CHints (preferIndoor hints) (List.length h) (List.length h + 1)]).
  rewrite (@st_bind_some _ _ _ _ _ _ _
             (@get_preferIndoor_spec h 2 R _ _ _ eq_refl)).
  cbn zeta.
  set (h1 := h ++ R).
  rewrite (@st_bind_some _ _ _ _ _ _ _ (array_literal_spec indoor_pool h1)).
  set (h2 := h1 ++ array_cells h1 indoor_pool).
  rewrite (@st_bind_some _ _ _ _ _ _ _ (array_literal_spec outdoor_pool h2)).
  set (h3 := h2 ++ array_cells h2 outdoor_pool).
  assert (L1 : List.length h <= List.length h1)
    by (unfold h1; rewrite length_app; lia).
  assert (L2 : List.length h1 <= List.length h2)
    by (unfold h2; rewrite length_app; lia).
  assert (L3 : List.length h2 <= List.length h3)
    by (unfold h3; rewrite length_app; lia).
  assert (Hin : holds h3 (List.length h1 + List.length indoor_pool)
                      (seq (List.length h1) (List.length indoor_pool)) indoor_pool)
    by (apply holds_frame, holds_array_cells).
  assert (Hout : holds h3 (List.length h2 + List.length outdoor_pool)
                       (seq (List.length h2) (List.length outdoor_pool)) outdoor_pool)
    by apply holds_array_cells.
  unfold fallbackRecommendations, target. fold hints.
  set (T := if preferIndoor hints then VStr (js "indoor")
            else coalesce (userTarget place) (VStr (js "outdoor"))).
  set (pool := if is_str T (js "indoor") then indoor_pool else outdoor_pool).
  assert (Hsrc : exists ls,
             holds h3 (if is_str T (js "indoor")
                       then List.length h1 + List.length indoor_pool
                       else List.length h2 + List.length outdoor_pool) ls pool).
  { unfold pool. destruct (is_str T (js "indoor")); eexists; eassumption. }
  destruct Hsrc as [lsrc Hsrc].
  rewrite (@st_bind_some _ _ _ _ _ _ _ (array_map_spec reclamp Hsrc)).
  set (h4 := h3 ++ array_cells h3 (map reclamp pool)).
  assert (L4 : List.length h3 <= List.length h4)
    by (unfold h4; rewrite length_app; lia).
  assert (Hbase : holds h4 (List.length h3 + List.length pool)
                        (seq (List.length h3) (List.length pool)) (map reclamp pool)).
  { generalize (holds_array_cells h3 (map reclamp pool)).
    rewrite length_map. exact (fun H => H). }
  destruct (preferIndoor hints && is_str (userTarget place) (js "outdoor")).
  - rewrite (@st_bind_some _ _ _ _ _ _ _ (array_literal_spec (extras w) h4)).
    set (h5 := h4 ++ array_cells h4 (extras w)).
    assert (Hex : holds h5 (List.length h4 + List.length (extras w))
                        (seq (List.length h4) (List.length (extras w))) (extras w))
      by apply holds_array_cells.
    assert (Hb5 : holds h5 (List.length h3 + List.length pool)
                        (seq (List.length h3) (List.length pool)) (map reclamp pool))
      by apply holds_frame, Hbase.
    destruct (array_spread_spec Hb5 Hex) as [Es Hs].
    rewrite (@st_bind_some _ _ _ _ _ _ _ Es).
    destruct (@array_slice0_spec 7 _ _ _ _ Hs) as [El Hl].
    set (spread := seq (List.length h3) (List.length pool)
                   ++ seq (List.length h4) (List.length (extras w))) in *.
    assert (EQ : h ++ (R ++ array_cells h1 indoor_pool ++ array_cells h2 outdoor_pool
                       ++ array_cells h3 (map reclamp pool) ++ array_cells h4 (extras w)
                       ++ [CArray spread] ++ [CArray (firstn 7 spread)])
                 = (h5 ++ [CArray spread]) ++ [CArray (firstn 7 spread)])
      by (unfold h5, h4, h3, h2, h1; rewrite !app_assoc; reflexivity).
    exists (List.length (h5 ++ [CArray spread])), (firstn 7 spread).
    eexists. rewrite EQ. split; [exact El | split; [exact Hl|]].
    constructor.
    + rewrite length_app. unfold h5. rewrite length_app. lia.
    + apply Forall_firstn_keep, Forall_app; split; apply Forall_seq_ge; lia.
  - assert (EQ : h ++ (R ++ array_cells h1 indoor_pool ++ array_cells h2 outdoor_pool
                       ++ array_cells h3 (map reclamp pool)) = h4)
      by (unfold h4, h3, h2, h1; rewrite !app_assoc; reflexivity).
    exists (List.length h3 + List.length pool), (seq (List.length h3) (List.length pool)).
    eexists. rewrite EQ. split; [reflexivity | split; [exact Hbase|]].
    constructor; [lia | apply Forall_seq_ge; lia].
Qed.

(** C9. A call of the fallback generator reads nothing of the store it
    runs in and changes none of its cells. From any two stores, whatever
    earlier calls and their callers have left in them, two calls with the
    same snapshot and place preference return arrays that hold the same
    entries in the same order, those of [fallbackRecommendations]; each
    call only adds cells to its store, and the array it returns and the
    objects in it are new ones, shared with nothing that existed before. *)
Theorem fallback_is_pure (w : WeatherSnapshot) (place : value) (h1 h2 : Store) :
  exists a1 new1 a2 new2,
    fallbackRecommendations_st w place h1 = Some (a1, h1 ++ new1)
    /\ fallbackRecommendations_st w place h2 = Some (a2, h2 ++ new2)
    /\ read_array (h1 ++ new1) a1 = Some (fallbackRecommendations w place)
    /\ read_array (h2 ++ new2) a2 = read_array (h1 ++ new1) a1
    /\ Forall (fun l => List.length h1 <= l) (reachable (h1 ++ new1) a1)
    /\ Forall (fun l => List.length h2 <= l) (reachable (h2 ++ new2) a2).
Proof.
  destruct (fallbackRecommendations_st_spec w place h1) as (a1 & ls1 & new1 & E1 & H1 & F1).
  destruct (fallbackRecommendations_st_spec w place h2) as (a2 & ls2 & new2 & E2 & H2 & F2).
  exists a1, new1, a2, new2.
  rewrite (holds_reachable H1), (holds_reachable H2), (holds_read H1), (holds_read H2).
  repeat split; assumption.
Qed.

(** Scenario C over the store: a first result that its caller has emptied
    does not change what a second call returns. *)
Example fallback_after_tampering :
  match fallbackRecommendations_st (snapshot 2 3 true) (VStr (js "outdoor")) [] with
  | Some (a, h) =>
    match (_ <== assign a (CArray []) ;;
           fallbackRecommendations_st (snapshot 2 3 true) (VStr (js "outdoor"))) h with
    | Some (b, h') => (read_array h' a, read_array h' b)
    | None => (None, None)
    end
  | None => (None, None)
  end
  = (Some [], Some (indoor_pool ++ extras (snapshot 2 3 true))).
Proof. vm_compute. reflexivity. Qed.

(** Only the temperature, the wind speed and the rain flag of the snapshot
    are read. *)
Lemma fallback_reads_three_fields (w1 w2 : WeatherSnapshot) (place : value) :
  tempC w1 = tempC w2 -> windMps w1 = windMps w2 -> isRainy w1 = isRainy w2 ->
  fallbackRecommendations w1 place = fallbackRecommendations w2 place.
Proof.
  intros Ht Hw Hr. rewrite !fallbackRecommendations_cases.
  unfold extras, safetyNote, ruleHintsFromWeather; cbn [preferIndoor].
  rewrite Ht, Hw, Hr. reflexivity.
Qed.

(** The spec's end-to-end scenarios A, B and C. *)
Example scenario_A :
  fallbackRecommendations (snapshot 2 3 false) (VStr (js "either")) = indoor_pool.
Proof. reflexivity. Qed.

Example scenario_B :
  fallbackRecommendations (snapshot 22 2 false) (VStr (js "outdoor")) = outdoor_pool.
Proof. reflexivity. Qed.

Example scenario_C :
  fallbackRecommendations (snapshot 2 3 true) (VStr (js "outdoor"))
  = indoor_pool ++ extras (snapshot 2 3 true).
Proof. reflexivity. Qed.

(** Every confidence of the fallback generator is an integer of [0, 100]. *)
Lemma fallback_confidence_in_range (w : WeatherSnapshot) (place : value) :
  Forall (fun r => int_between 0 100 (confidence r)) (fallbackRecommendations w place).
Proof.
  assert (P : forall z, (0 <= z <= 100)%Z -> int_between 0 100 (of_Z z))
    by (intros z Hz; exists z; split; [reflexivity | exact Hz]).
  rewrite fallbackRecommendations_cases.
  pool_cases w place;
    repeat (apply Forall_cons || apply Forall_nil); apply P; lia.
Qed.

(* ------------------------------------------------------------------ *)
(** ** Model-assisted generator *)

Lemma map_throwing_Forall2 {A B} (f : A -> throws B) xs ys :
  map_throwing f xs = inr ys -> Forall2 (fun x y => f x = inr y) xs ys.
Proof.
  revert ys; induction xs as [|x xs IH]; simpl; intros ys H.
  - injection H as <-. constructor.
  - unfold and_then in H. destruct (f x) as [e|y] eqn:Fx; [discriminate|].
    destruct (map_throwing f xs) as [e|ys'] eqn:Fxs; [discriminate|].
    injection H as <-. constructor; [assumption | apply IH; reflexivity].
Qed.

Lemma Forall2_map_throwing {A B} (f : A -> throws B) xs ys :
  Forall2 (fun x y => f x = inr y) xs ys -> map_throwing f xs = inr ys.
Proof.
  induction 1 as [|x y xs ys Hx _ IH]; simpl; [reflexivity|].
  rewrite Hx. simpl. rewrite IH. reflexivity.
Qed.

(** A callback that throws nothing but [e] makes [map] return when it
    returns on every element, and throw [e] otherwise. *)
Lemma map_throwing_cases {A B} (f : A -> throws B) (ok : A -> bool) (e : exn) xs :
  (forall x, if ok x then exists y, f x = inr y else f x = inl e) ->
  if forallb ok xs then exists ys, map_throwing f xs = inr ys
  else map_throwing f xs = inl e.
Proof.
  intros F. induction xs as [|x xs IH]; simpl; [eauto|].
  specialize (F x). destruct (ok x); simpl.
  - destruct F as [y ->]. simpl.
    destruct (forallb ok xs); [destruct IH as [ys ->]; simpl; eauto|].
    rewrite IH. reflexivity.
  - rewrite F. reflexivity.
Qed.

(** Induction on values, the elements of an array being smaller values. *)
Lemma value_nested_ind (P : value -> Prop) :
  P VUndefined -> P VNull -> (forall b, P (VBool b)) -> (forall n, P (VNum n)) ->
  (forall s, P (VStr s)) -> (forall l, Forall P l -> P (VArr l)) ->
  (forall ps, P (VObj ps)) ->
  forall v, P v.
Proof.
  intros HU HN HB HM HS HA HO. fix IH 1.
  intros [| |b|n|s|l|ps];
    [exact HU | exact HN | apply HB | apply HM | apply HS | | apply HO].
  apply HA. induction l as [|x l IHl]; constructor; [apply IH | exact IHl].
Qed.

Lemma convertible_primitive v : is_primitive v = true -> convertible v = true.
Proof. destruct v; simpl; auto; discriminate. Qed.

Lemma convertible_coalesce v d :
  is_primitive d = true -> convertible (coalesce v d) = convertible v.
Proof.
  intros D. unfold coalesce.
  destruct v; cbn [is_nullish]; auto using convertible_primitive.
Qed.

Section ModelFacts.
Context {RT : Runtime}.

Lemma to_string_cons (x : value) (l : list value) :
  to_string (VArr (x :: l))
  = (s <~ (if is_nullish x then inr [] else to_string x) ;;
     match l with
     | [] => inr s
     | _ => r <~ to_string (VArr l) ;; inr (s ++ js "," ++ r)
     end).
Proof. reflexivity. Qed.

(** [String] returns on the convertible values and throws a TypeError on
    every other one. *)
Lemma to_string_convertible v :
  if convertible v then exists s, to_string v = inr s else to_string v = inl TypeError.
Proof.
  induction v as [| |b|n|s|l Hl|ps] using value_nested_ind;
    try (simpl; eauto; fail).
  - induction Hl as [|x l Hx _ IH]; [simpl; eauto|].
    rewrite to_string_cons.
    change (convertible (VArr (x :: l))) with (convertible x && convertible (VArr l)).
    destruct (convertible x) eqn:Cx; cbn [andb].
    + destruct Hx as [sx Hx].
      destruct (is_nullish x); [|rewrite Hx]; cbn [and_then];
        (destruct l as [|y l']; [simpl; eauto|]);
        (destruct (convertible (VArr (_ :: _)));
         [destruct IH as [r ->]; cbn [and_then]; eauto | rewrite IH; reflexivity]).
    + assert (N : is_nullish x = false)
        by (destruct x; try reflexivity; discriminate Cx).
      rewrite N, Hx. reflexivity.
  - simpl. destruct (assoc (js "toString") ps); eauto.
Qed.

(** So does [Number]. *)
Lemma Number_convertible v :
  if convertible v then exists n, Number_ v = inr n else Number_ v = inl TypeError.
Proof.
  generalize (to_string_convertible v).
  destruct v; try (simpl; eauto; fail); unfold Number_;
    (destruct (convertible _); [intros [s ->] | intros ->]; simpl; eauto).
Qed.

Lemma to_string_primitive v :
  is_primitive v = true -> exists s, to_string v = inr s.
Proof. destruct v; simpl; try discriminate; eauto. Qed.

Lemma Number_primitive v :
  is_primitive v = true -> exists n, Number_ v = inr n.
Proof. destruct v; simpl; try discriminate; eauto. Qed.

Lemma coalesce_primitive v d :
  is_primitive v = true -> is_primitive d = true -> is_primitive (coalesce v d) = true.
Proof. unfold coalesce. destruct (is_nullish v); auto. Qed.

Lemma coalesce_nullish v d : is_nullish v = true -> coalesce v d = d.
Proof. unfold coalesce. intros ->. reflexivity. Qed.

(** What a successful run of the [map] callback has computed. *)
Lemma toRecommendation_inr it r :
  toRecommendation it = inr r ->
  is_nullish it = false
  /\ exists t rs c,
       String_ (coalesce (own it (js "title")) (VStr [])) = inr t
       /\ String_ (coalesce (own it (js "reason")) (VStr [])) = inr rs
       /\ Number_ (coalesce (own it (js "confidence")) (VNum (of_Z 50))) = inr c
       /\ r = {| title := slice0 60 t;
                 reason := slice0 140 rs;
                 label := if is_str (own it (js "label")) (js "outdoor")
                          then outdoor else indoor;
                 confidence := clampInt c (of_Z 0) (of_Z 100) |}.
Proof.
  unfold toRecommendation, and_then. intros H.
  destruct (is_nullish it); [discriminate|]. split; [reflexivity|].
  destruct (String_ (coalesce (own it (js "title")) (VStr []))) as [?|t]; [discriminate|].
  destruct (String_ (coalesce (own it (js "reason")) (VStr []))) as [?|rs]; [discriminate|].
  destruct (Number_ (coalesce (own it (js "confidence")) (VNum (of_Z 50)))) as [?|c];
    [discriminate|].
  injection H as <-. exists t, rs, c. repeat split.
Qed.

(** Whatever the callback returns is truncated, labelled with one of the
    two labels and carries a clamped confidence or [NaN]. *)
Lemma toRecommendation_bounds it r :
  toRecommendation it = inr r ->
  List.length (title r) <= 60 /\ List.length (reason r) <= 140
  /\ (confidence r = NaN \/ int_between 0 100 (confidence r)).
Proof.
  intros H. apply toRecommendation_inr in H.
  destruct H as (_ & t & rs & c & _ & _ & _ & ->). cbn [title reason confidence].
  unfold slice0. repeat split; try apply firstn_le_length.
  destruct c as [| | |q]; [left; reflexivity | right | right | right];
    apply clampInt_range; discriminate.
Qed.

(** A null element makes the callback throw. *)
Lemma toRecommendation_nullish it :
  is_nullish it = true -> toRecommendation it = inl TypeError.
Proof. unfold toRecommendation. intros ->. reflexivity. Qed.

(** The callback returns on the elements that are [mappable] and throws a
    TypeError on every other one. *)
Lemma toRecommendation_mappable (it : value) :
  if mappable it then exists r, toRecommendation it = inr r
  else toRecommendation it = inl TypeError.
Proof.
  unfold mappable, toRecommendation, String_.
  destruct (is_nullish it); [reflexivity|]. cbn [negb andb].
  generalize (to_string_convertible (coalesce (own it (js "title")) (VStr []))).
  rewrite convertible_coalesce by reflexivity.
  destruct (convertible (own it (js "title"))); [intros [t ->] | intros ->; reflexivity].
  generalize (to_string_convertible (coalesce (own it (js "reason")) (VStr []))).
  rewrite convertible_coalesce by reflexivity.
  destruct (convertible (own it (js "reason"))); [intros [rs ->] | intros ->; reflexivity].
  generalize (Number_convertible (coalesce (own it (js "confidence")) (VNum (of_Z 50)))).
  rewrite convertible_coalesce by reflexivity.
  destruct (convertible (own it (js "confidence")));
    [intros [c ->] | intros ->; reflexivity].
  cbn [andb and_then]. eauto.
Qed.

(** C10 (amended). The callback returns on every element that is neither
    [null] nor [undefined] and whose title, reason and confidence convert,
    which every value does but an object with an own property named
    [toString] and an array holding such an object; it throws a TypeError
    on every other element. When it returns, the title has at most 60 code
    units, the reason at most 140, the label is one of the two labels, a
    missing title or reason has become the empty string and a missing
    confidence 50. *)
Theorem toRecommendation_returns_iff_mappable (it : value) :
  if mappable it then
    exists r,
      toRecommendation it = inr r
      /\ List.length (title r) <= 60
      /\ List.length (reason r) <= 140
      /\ (label r = indoor \/ label r = outdoor)
      /\ (is_nullish (own it (js "title")) = true -> title r = [])
      /\ (is_nullish (own it (js "reason")) = true -> reason r = [])
      /\ (is_nullish (own it (js "confidence")) = true -> confidence r = of_Z 50)
  else toRecommendation it = inl TypeError.
Proof.
  generalize (toRecommendation_mappable it).
  destruct (mappable it); [|exact (fun H => H)].
  intros [r E]. exists r. split; [exact E|].
  apply toRecommendation_inr in E.
  destruct E as (_ & t & rs & c & Et & Ers & Ec & ->).
  cbn [title reason label confidence]. unfold slice0.
  repeat split; try apply firstn_le_length.
  - destruct (is_str (own it (js "label")) (js "outdoor")); auto.
  - intros N. rewrite (@coalesce_nullish _ _ N) in Et. injection Et as <-. reflexivity.
  - intros N. rewrite (@coalesce_nullish _ _ N) in Ers. injection Ers as <-. reflexivity.
  - intros N. rewrite (@coalesce_nullish _ _ N) in Ec. injection Ec as <-. reflexivity.
Qed.

(** What a successful run of [callOpenAI] has received: a text that parses
    to an object whose [recommendations] is an array, mapped element by
    element. *)
Lemma readCompletion_inr res recs :
  readCompletion res = inr recs ->
  exists text parsed items,
    JSON_parse text = Some parsed
    /\ opt_get parsed (js "recommendations") = VArr items
    /\ map_throwing toRecommendation items = inr recs.
Proof.
  unfold readCompletion. intros H.
  destruct res as [|res]; [discriminate|].
  destruct (negb (res_ok res)); [discriminate|].
  destruct (res_json res) as [data|]; [|discriminate].
  match type of H with
  | match ?t with _ => _ end = _ => destruct t as [| | | |text| |]; try discriminate
  end.
  destruct (JSON_parse text) as [parsed|] eqn:P; [|discriminate].
  destruct (opt_get parsed (js "recommendations")) as [| | | | |items|] eqn:R;
    try discriminate.
  exists text, parsed, items. auto.
Qed.

(** [callOpenAI] after [fetch]: the checks, then the mapping. *)
Lemma readCompletion_repliedArray (res : fetch_result) :
  readCompletion res
  = (items <~ repliedArray res ;; map_throwing toRecommendation items).
Proof.
  unfold readCompletion, repliedArray.
  destruct res as [|res]; [reflexivity|].
  destruct (negb (res_ok res)); [reflexivity|].
  destruct (res_json res) as [data|]; [|reflexivity].
  match goal with
  | |- match ?t with _ => _ end = _ => destruct t as [| | | |text| |]; try reflexivity
  end.
  destruct (JSON_parse text) as [parsed|]; [|reflexivity].
  destruct (opt_get parsed (js "recommendations")); reflexivity.
Qed.

(** C7 (amended). When the provider's reply passes the checks of
    [callOpenAI] with the array [items] under [recommendations], the
    generator returns a list exactly when every item is [mappable], and
    throws otherwise. The list it returns has one entry per item, in order
    and with nothing appended; an entry is labelled outdoor when the item's
    label is the string "outdoor" and indoor otherwise, so a label that is
    "indoor" or "outdoor" is passed through unchanged. *)
Theorem model_labels_normalised (res : fetch_result) (items : list value) :
  repliedArray res = inr items ->
  ((exists recs, readCompletion res = inr recs) <-> forallb mappable items = true)
  /\ forall recs, readCompletion res = inr recs ->
       List.length recs = List.length items
       /\ Forall2
            (fun it r =>
               label r = (if is_str (own it (js "label")) (js "outdoor")
                          then outdoor else indoor)
               /\ (own it (js "label") = VStr (js "indoor")
                   \/ own it (js "label") = VStr (js "outdoor") ->
                   label_value (label r) = own it (js "label")))
            items recs.
Proof.
  intros A. rewrite readCompletion_repliedArray, A. cbn [and_then]. split.
  - generalize (map_throwing_cases toRecommendation mappable TypeError items
                  toRecommendation_mappable).
    destruct (forallb mappable items).
    + intros H. split; auto.
    + intros ->. split; [intros [recs H]; discriminate H | discriminate].
  - intros recs M. apply map_throwing_Forall2 in M. split.
    + symmetry. eapply Forall2_length; eassumption.
    + eapply Forall2_impl; [|exact M]. intros it r E.
      apply toRecommendation_inr in E.
      destruct E as (_ & t & rs & c & _ & _ & _ & ->). cbn [label].
      split; [reflexivity|]. intros [L|L]; rewrite L; reflexivity.
Qed.

(** The ways [callOpenAI] fails that the specification names: a
    non-success status, no structured-output text, a text that does not
    parse, and a [recommendations] field that is not an array. *)
Lemma readCompletion_failures :
  (forall res, res_ok res = false ->
     exists e, readCompletion (FetchResolved res) = inl e)
  /\ (forall st stt tx data,
        (200 <=? st)%N && (st <=? 299)%N = true ->
        (forall s, opt_get data (js "output_text") <> VStr s) ->
        (forall s, opt_get (opt_index (opt_get (opt_index (opt_get data (js "output")) 0)
                                               (js "content")) 0) (js "text") <> VStr s) ->
        exists e, readCompletion (FetchResolved
                    {| res_status := st; res_statusText := stt; res_text := tx;
                       res_json := Some data |}) = inl e)
  /\ (forall st stt tx text,
        (200 <=? st)%N && (st <=? 299)%N = true ->
        JSON_parse text = None ->
        readCompletion (FetchResolved
          {| res_status := st; res_statusText := stt; res_text := tx;
             res_json := Some (VObj [(js "output_text", VStr text)]) |})
        = inl SyntaxError)
  /\ (forall st stt tx text parsed,
        (200 <=? st)%N && (st <=? 299)%N = true ->
        JSON_parse text = Some parsed ->
        isArray (opt_get parsed (js "recommendations")) = false ->
        readCompletion (FetchResolved
          {| res_status := st; res_statusText := stt; res_text := tx;
             res_json := Some (VObj [(js "output_text", VStr text)]) |})
        = inl (Error (js "OpenAI JSON missing recommendations array."))).
Proof.
  repeat split.
  - intros res H. unfold readCompletion. rewrite H. cbn [negb]. eauto.
  - intros st stt tx data Hok H1 H2. unfold readCompletion, res_ok.
    cbn [res_status res_json]. rewrite Hok. cbn [negb].
    destruct (opt_get data (js "output_text")) eqn:E1;
      try (exfalso; eapply H1; reflexivity);
      (destruct (opt_get (opt_index (opt_get (opt_index (opt_get data (js "output")) 0)
                                             (js "content")) 0) (js "text")) eqn:E2;
       try (exfalso; eapply H2; reflexivity); eexists; reflexivity).
  - intros st stt tx text Hok P. unfold readCompletion, res_ok.
    cbn [res_status res_json]. rewrite Hok. cbn [negb].
    change (opt_get (VObj [(js "output_text", VStr text)]) (js "output_text"))
      with (VStr text). cbv iota. rewrite P. reflexivity.
  - intros st stt tx text parsed Hok P A. unfold readCompletion, res_ok.
    cbn [res_status res_json]. rewrite Hok. cbn [negb].
    change (opt_get (VObj [(js "output_text", VStr text)]) (js "output_text"))
      with (VStr text). cbv iota. rewrite P.
    destruct (opt_get parsed (js "recommendations")); try reflexivity. discriminate A.
Qed.

End ModelFacts.

(* ------------------------------------------------------------------ *)
(** ** Orchestrator *)

Section HandlerFacts.
Context {RT : Runtime}.
Variable W : World.

(** The handler, run from an empty trace, path by path. *)
Lemma run_handler (rq : Request) :
  run (handler W rq) =
  if str_eqb (method rq) (js "OPTIONS") then (Returned NoContent, [])
  else if negb (str_eqb (method rq) (js "POST")) then
    (Returned (Failure 405 (js "Method not allowed. Use POST.")), [])
  else
    match body rq with
    | None => (Returned (Failure 400 (js "Invalid JSON body.")), [])
    | Some b =>
      match String_ (or_else (opt_get b (js "city")) (VStr [])) with
      | inl e => (Threw e, [])
      | inr s =>
        let city := trim s in
        let weatherKey := env_or W "WEATHER_API_KEY" [] in
        if negb (nonempty city) then
          (Returned (Failure 400 (js "city is required.")), [])
        else if negb (nonempty weatherKey) then
          (Returned (Failure 500
             (js "Missing WEATHER_API_KEY on the server (Edge Function env).")), [])
        else
          match fetchOpenWeather W city weatherKey with
          | WeatherThrew m =>
            (Returned (Failure 500
               (match m with Some m => m | None => js "Unknown error" end)),
             [WeatherFetch city weatherKey])
          | WeatherOk w =>
            let fallback := fallbackRecommendations w (requested_place b) in
            if nonempty (env_or W "OPENAI_API_KEY" []) then
              let call := openai_request (model_args W b city w) in
              (Returned (Success
                 {| resp_city := city; resp_weather := w;
                    recommendations :=
                      match readCompletion (fetch_openai W call) with
                      | inr recs => recs
                      | inl _ => fallback
                      end |}),
               [WeatherFetch city weatherKey; OpenAIFetch call])
            else
              (Returned (Success {| resp_city := city; resp_weather := w;
                                    recommendations := fallback |}),
               [WeatherFetch city weatherKey])
          end
      end
    end.
Proof.
  unfold run, handler.
  destruct (str_eqb (method rq) (js "OPTIONS")); [reflexivity|].
  destruct (negb (str_eqb (method rq) (js "POST"))); [reflexivity|].
  destruct (body rq) as [b|]; [|reflexivity].
  destruct (String_ (or_else (opt_get b (js "city")) (VStr []))) as [e|s]; [reflexivity|].
  cbv zeta.
  destruct (negb (nonempty (trim s))); [reflexivity|].
  destruct (negb (nonempty (env_or W "WEATHER_API_KEY" []))); [reflexivity|].
  unfold bind, emit, ret, callOpenAI. cbn [app].
  destruct (fetchOpenWeather W (trim s) (env_or W "WEATHER_API_KEY" []));
    [|reflexivity].
  destruct (nonempty (env_or W "OPENAI_API_KEY" [])); [|reflexivity].
  unfold bind, emit, ret. cbn [app]. fold (model_args W b (trim s) w).
  destruct (readCompletion (fetch_openai W (openai_request (model_args W b (trim s) w))));
    reflexivity.
Qed.

(** A body whose city converts to a blank string is refused before any
    call leaves the handler. *)
Lemma blank_city_refused (rq : Request) (b : value) (s : jsstring) :
  body rq = Some b ->
  String_ (or_else (opt_get b (js "city")) (VStr [])) = inr s ->
  trim s = [] ->
  snd (run (handler W rq)) = []
  /\ (forall resp, fst (run (handler W rq)) <> Returned (Success resp))
  /\ (method rq = js "POST" ->
      fst (run (handler W rq)) = Returned (Failure 400 (js "city is required."))).
Proof.
  intros Hb Hs Ht. rewrite run_handler, Hb, Hs. cbv zeta. rewrite Ht. cbn [nonempty negb].
  repeat split.
  - destruct (str_eqb (method rq) (js "OPTIONS")); [reflexivity|].
    destruct (negb (str_eqb (method rq) (js "POST"))); reflexivity.
  - intros resp.
    destruct (str_eqb (method rq) (js "OPTIONS")); [discriminate|].
    destruct (negb (str_eqb (method rq) (js "POST"))); discriminate.
  - intros ->. reflexivity.
Qed.

(** C8. A request whose city is a string that is empty or blank after
    trimming never reaches the weather client (no call leaves the handler
    at all) and produces no recommendations; sent with POST it is answered
    400 "city is required.". *)
Theorem blank_city_rejected (rq : Request) (b : value) (s : jsstring) :
  body rq = Some b ->
  opt_get b (js "city") = VStr s ->
  trim s = [] ->
  snd (run (handler W rq)) = []
  /\ (forall c k, ~ In (WeatherFetch c k) (snd (run (handler W rq))))
  /\ (forall resp, fst (run (handler W rq)) <> Returned (Success resp))
  /\ (method rq = js "POST" ->
      fst (run (handler W rq)) = Returned (Failure 400 (js "city is required."))).
Proof.
  intros Hb Hc Ht.
  assert (E : exists s', String_ (or_else (opt_get b (js "city")) (VStr [])) = inr s'
                         /\ trim s' = []).
  { rewrite Hc. unfold or_else. cbn [truthy].
    destruct (nonempty s); [exists s | exists []]; split; auto. }
  destruct E as (s' & Hs' & Ht').
  destruct (blank_city_refused rq Hb Hs' Ht') as (T & S & P).
  repeat split; try assumption.
  intros c k. rewrite T. intros [].
Qed.

(** C3. When the weather client has returned a snapshot and the model
    generator has failed, for whatever reason, the handler answers with a
    success whose list is exactly the fallback generator's output for that
    snapshot and the requested place. *)
Theorem model_failure_falls_back
    (rq : Request) (c k : jsstring) (w : WeatherSnapshot)
    (call : OpenAIRequest) (e : exn) :
  In (WeatherFetch c k) (snd (run (handler W rq))) ->
  fetchOpenWeather W c k = WeatherOk w ->
  In (OpenAIFetch call) (snd (run (handler W rq))) ->
  readCompletion (fetch_openai W call) = inl e ->
  exists b,
    body rq = Some b
    /\ fst (run (handler W rq))
       = Returned (Success
           {| resp_city := c; resp_weather := w;
              recommendations := fallbackRecommendations w (requested_place b) |}).
Proof.
  rewrite run_handler.
  destruct (str_eqb (method rq) (js "OPTIONS")); [intros []|].
  destruct (negb (str_eqb (method rq) (js "POST"))); [intros []|].
  destruct (body rq) as [b|]; [|intros []].
  destruct (String_ (or_else (opt_get b (js "city")) (VStr []))) as [?|s]; [intros []|].
  cbv zeta.
  destruct (negb (nonempty (trim s))); [intros []|].
  destruct (negb (nonempty (env_or W "WEATHER_API_KEY" []))); [intros []|].
  destruct (fetchOpenWeather W (trim s) (env_or W "WEATHER_API_KEY" [])) as [w'|m] eqn:F.
  - destruct (nonempty (env_or W "OPENAI_API_KEY" [])); cbn [fst snd].
    + intros [Hw|[Hw|[]]] Hok [Hc|[Hc|[]]] Hfail; try discriminate.
      injection Hw as <- <-. injection Hc as <-.
      rewrite F in Hok. injection Hok as <-. rewrite Hfail.
      exists b. split; reflexivity.
    + intros _ _ [Hc|[]]. discriminate.
  - cbn [fst snd]. intros _ _ [Hc|[]]. discriminate.
Qed.


(** Where the list of a successful reply comes from. *)
Lemma handler_success (rq : Request) (resp : RecommendResponse) :
  fst (run (handler W rq)) = Returned (Success resp) ->
  exists b,
    body rq = Some b
    /\ (recommendations resp
        = fallbackRecommendations (resp_weather resp) (requested_place b)
        \/ exists call,
             In (OpenAIFetch call) (snd (run (handler W rq)))
             /\ readCompletion (fetch_openai W call) = inr (recommendations resp)).
Proof.
  rewrite run_handler.
  destruct (str_eqb (method rq) (js "OPTIONS")); [discriminate|].
  destruct (negb (str_eqb (method rq) (js "POST"))); [discriminate|].
  destruct (body rq) as [b|]; [|discriminate].
  destruct (String_ (or_else (opt_get b (js "city")) (VStr []))) as [?|s]; [discriminate|].
  cbv zeta.
  destruct (negb (nonempty (trim s))); [discriminate|].
  destruct (negb (nonempty (env_or W "WEATHER_API_KEY" []))); [discriminate|].
  destruct (fetchOpenWeather W (trim s) (env_or W "WEATHER_API_KEY" [])) as [w|m];
    [|discriminate].
  destruct (nonempty (env_or W "OPENAI_API_KEY" [])); cbn [fst snd].
  - destruct (readCompletion (fetch_openai W (openai_request (model_args W b (trim s) w))))
      as [e|recs] eqn:R; intros H; injection H as <-; cbn [recommendations resp_weather];
      exists b; split; auto.
    right. eexists. split; [right; left; reflexivity | exact R].
  - intros H; injection H as <-; cbn [recommendations resp_weather].
    exists b; auto.
Qed.

(** Every confidence of a successful reply is an integer of [0, 100] or
    [NaN]; the latter only on the model path. *)
Lemma returned_confidence (rq : Request) (resp : RecommendResponse) :
  fst (run (handler W rq)) = Returned (Success resp) ->
  Forall (fun r => confidence r = NaN \/ int_between 0 100 (confidence r))
         (recommendations resp).
Proof.
  intros H. destruct (handler_success _ H) as (b & _ & [E|(call & _ & R)]).
  - rewrite E. eapply Forall_impl; [|apply fallback_confidence_in_range]. auto.
  - destruct (readCompletion_inr _ R) as (_ & _ & items & _ & _ & M).
    apply map_throwing_Forall2 in M. clear R H.
    induction M as [|it r items recs Hr _ IH]; [constructor|].
    constructor; [|exact IH]. apply (toRecommendation_bounds _ Hr).
Qed.



End HandlerFacts.

(** Once the city is known to be non-empty the body is an object, so
    reading [body.preferences] cannot throw. *)
Lemma city_needs_body {RT : Runtime} (b : value) (s : jsstring) :
  String_ (or_else (opt_get b (js "city")) (VStr [])) = inr s ->
  nonempty (trim s) = true ->
  is_nullish b = false.
Proof.
  intros Hs Hn. destruct b; try reflexivity;
    cbn in Hs; injection Hs as <-; discriminate Hn.
Qed.

(* ------------------------------------------------------------------ *)
(** ** Worked scenarios *)

Lemma blank_city_rejected_witness :
  let rq := post "   " "either" in
  let W := scenario_world mild provider_down in
  snd (run (handler (RT := scenario_runtime VNull) W rq)) = []
  /\ (forall c k,
        ~ In (WeatherFetch c k) (snd (run (handler (RT := scenario_runtime VNull) W rq))))
  /\ (forall resp,
        fst (run (handler (RT := scenario_runtime VNull) W rq)) <> Returned (Success resp))
  /\ (method rq = js "POST" ->
      fst (run (handler (RT := scenario_runtime VNull) W rq))
      = Returned (Failure 400 (js "city is required."))).
Proof.
  cbv zeta.
  eapply (@blank_city_rejected (scenario_runtime VNull)
            (scenario_world mild provider_down) (post "   " "either"));
    reflexivity.
Defined.

(** Scenario E: the provider answers 500 and the caller still gets the
    outdoor pool. *)
Lemma model_failure_falls_back_witness :
  exists b,
    body (post "Oslo" "outdoor") = Some b
    /\ fst (run (handler (RT := scenario_runtime VNull)
                         (scenario_world mild provider_down) (post "Oslo" "outdoor")))
       = Returned (Success
           {| resp_city := js "Oslo"; resp_weather := mild;
              recommendations := fallbackRecommendations mild (requested_place b) |}).
Proof.
  eapply (@model_failure_falls_back (scenario_runtime VNull)
            (scenario_world mild provider_down) (post "Oslo" "outdoor")
            (js "Oslo") (js "weather-key") mild).
  - left. reflexivity.
  - reflexivity.
  - right. left. reflexivity.
  - vm_compute. reflexivity.
Defined.

(** Scenario D also covers a body without any city. *)
Example missing_city_rejected :
  run (handler (RT := scenario_runtime VNull) (scenario_world mild provider_down)
               {| method := js "POST"; body := Some (VObj []) |})
  = (Returned (Failure 400 (js "city is required.")), []).
Proof. vm_compute. reflexivity. Qed.



(** C7 (counterexample). The provider labels an item "park"; the entry
    returned for it is labelled indoor. *)
Lemma foreign_label_becomes_indoor :
  readCompletion (RT := scenario_runtime (reply_of [park_item]))
                 (completion (reply_of [park_item]))
  = inr [ {| title := js "Picnic"; reason := js "Sunny afternoon outside";
             label := indoor; confidence := of_Z 80 |} ]
  /\ own park_item (js "label") = VStr (js "park")
  /\ label_value indoor <> own park_item (js "label").
Proof. repeat split; try (vm_compute; reflexivity). vm_compute. discriminate. Qed.

Lemma model_labels_normalised_witness :
  let RT := scenario_runtime (reply_of [park_item; vague_item]) in
  let res := completion (reply_of [park_item; vague_item]) in
  let items := [park_item; vague_item] in
  repliedArray res = inr items
  /\ ((exists recs, readCompletion res = inr recs) <-> forallb mappable items = true)
  /\ forall recs, readCompletion res = inr recs ->
       List.length recs = List.length items
       /\ Forall2
            (fun it r =>
               label r = (if is_str (own it (js "label")) (js "outdoor")
                          then outdoor else indoor)
               /\ (own it (js "label") = VStr (js "indoor")
                   \/ own it (js "label") = VStr (js "outdoor") ->
                   label_value (label r) = own it (js "label")))
            items recs.
Proof.
  cbv zeta. split; [vm_compute; reflexivity|].
  apply (@model_labels_normalised (scenario_runtime (reply_of [park_item; vague_item]))
           (completion (reply_of [park_item; vague_item])) [park_item; vague_item]).
  vm_compute. reflexivity.
Defined.

(** The same reply with a [null] item appended passes the checks and makes
    the generator throw. *)
Example null_item_fails_the_reply :
  let RT := scenario_runtime (reply_of [park_item; VNull]) in
  repliedArray (completion (reply_of [park_item; VNull])) = inr [park_item; VNull]
  /\ readCompletion (completion (reply_of [park_item; VNull])) = inl TypeError.
Proof. split; vm_compute; reflexivity. Qed.

(** C10 (counterexample). A [null] element of the array makes the
    generator throw. *)
Lemma null_element_throws :
  toRecommendation (RT := scenario_runtime (reply_of [VNull])) VNull = inl TypeError
  /\ readCompletion (RT := scenario_runtime (reply_of [VNull]))
                    (completion (reply_of [VNull]))
     = inl TypeError.
Proof. split; vm_compute; reflexivity. Qed.

Lemma toRecommendation_returns_iff_mappable_witness :
  exists r,
    toRecommendation (RT := scenario_runtime VNull) boxed_item = inr r
    /\ List.length (title r) <= 60
    /\ List.length (reason r) <= 140
    /\ (label r = indoor \/ label r = outdoor)
    /\ (is_nullish (own boxed_item (js "title")) = true -> title r = [])
    /\ (is_nullish (own boxed_item (js "reason")) = true -> reason r = [])
    /\ (is_nullish (own boxed_item (js "confidence")) = true -> confidence r = of_Z 50).
Proof.
  exact (@toRecommendation_returns_iff_mappable (scenario_runtime VNull) boxed_item).
Defined.

(** An object for a title and an array for a confidence are converted; an
    object that shadows [toString] is not. *)
Example boxed_fields_are_converted :
  toRecommendation (RT := scenario_runtime VNull) boxed_item
  = inr {| title := js "[object Object]"; reason := [];
           label := outdoor; confidence := of_Z 75 |}
  /\ toRecommendation (RT := scenario_runtime VNull) shadowing_item = inl TypeError.
Proof. split; vm_compute; reflexivity. Qed.

(** C6 (failing input). The provider sends the confidence "high": whatever
    the runtime, the entry built for the item carries [NaN], which is not
    an integer of [0, 100], and the handler returns it in a success. *)
Theorem nan_confidence_is_returned :
  (forall RT : Runtime,
     toRecommendation (RT := RT) vague_item
     = inr {| title := js "Walk"; reason := js "Fresh air today";
              label := outdoor; confidence := NaN |})
  /\ fst (run (handler (RT := scenario_runtime (reply_of [vague_item]))
                       (scenario_world mild (completion (reply_of [vague_item])))
                       (post "Oslo" "outdoor")))
     = Returned (Success
         {| resp_city := js "Oslo"; resp_weather := mild;
            recommendations :=
              [ {| title := js "Walk"; reason := js "Fresh air today";
                   label := outdoor; confidence := NaN |} ] |})
  /\ ~ int_between 0 100 NaN.
Proof.
  split; [|split].
  - intros RT. vm_compute. reflexivity.
  - vm_compute. reflexivity.
  - intros [z [E _]]. discriminate E.
Qed.

(* ------------------------------------------------------------------ *)
(** ** Further properties: clampInt *)

Lemma round_of_Z z : Math_round (of_Z z) = of_Z z.
Proof.
  unfold Math_round, of_Z. do 2 f_equal.
  unfold Qfloor, Qplus, inject_Z. cbn [Qnum Qden].
  change (Z.pos (1 * 2)) with 2%Z. change (1 * 1)%Z with 1%Z.
  rewrite Z.div_add_l by lia. change (1 / 2)%Z with 0%Z. lia.
Qed.

(** [clampInt] on each kind of number, for integer bounds. *)
Lemma clampInt_cases lo hi n :
  clampInt n (of_Z lo) (of_Z hi) =
  match n with
  | NaN => NaN
  | PosInf => of_Z (Z.max lo hi)
  | NegInf => of_Z lo
  | Fin q => of_Z (Z.max lo (Z.min hi (Qfloor (q + (1 # 2)))))
  end.
Proof.
  unfold clampInt. destruct n as [| | |q].
  - reflexivity.
  - change (Math_min (of_Z hi) (Math_round PosInf)) with (of_Z hi).
    apply Math_max_of_Z.
  - reflexivity.
  - change (Math_round (Fin q)) with (of_Z (Qfloor (q + (1 # 2)))).
    rewrite Math_min_of_Z, Math_max_of_Z. reflexivity.
Qed.

Lemma Qfloor_half z : Qfloor (inject_Z z + (1 # 2)) = z.
Proof.
  unfold Qfloor, Qplus, inject_Z. cbn [Qnum Qden].
  change (Z.pos (1 * 2)) with 2%Z. change (1 * 1)%Z with 1%Z.
  rewrite Z.div_add_l by lia. change (1 / 2)%Z with 0%Z. lia.
Qed.

(** X1. For integer bounds [lo <= hi], [clampInt] of any number but [NaN]
    is an integer of [lo, hi]; of a finite number already inside the
    bounds it is the nearest integer, a tie going up. *)
Theorem clampInt_integer_in_bounds (lo hi : Z) (n : number) :
  (lo <= hi)%Z -> n <> NaN ->
  exists z : Z,
    clampInt n (of_Z lo) (of_Z hi) = of_Z z
    /\ (lo <= z <= hi)%Z
    /\ (forall q, n = Fin q ->
          (inject_Z lo <= q)%Q -> (q <= inject_Z hi)%Q ->
          (q - (1 # 2) < inject_Z z)%Q /\ (inject_Z z <= q + (1 # 2))%Q).
Proof.
  intros Hb Hn. rewrite clampInt_cases. destruct n as [| | |q]; [congruence | | |].
  - exists (Z.max lo hi). repeat split; try lia; intros; discriminate.
  - exists lo. repeat split; try lia; intros; discriminate.
  - eexists. split; [reflexivity|]. split; [lia|].
    intros q' E Hlo Hhi. injection E as <-.
    assert (L : (lo <= Qfloor (q + (1 # 2)))%Z).
    { rewrite <- (Qfloor_half lo). apply Qfloor_resp_le.
      apply Qplus_le_l. exact Hlo. }
    assert (U : (Qfloor (q + (1 # 2)) <= hi)%Z).
    { rewrite <- (Qfloor_half hi). apply Qfloor_resp_le.
      apply Qplus_le_l. exact Hhi. }
    replace (Z.max lo (Z.min hi (Qfloor (q + (1 # 2))))) with (Qfloor (q + (1 # 2)))
      by lia.
    pose proof (Qlt_floor (q + (1 # 2))) as F. rewrite inject_Z_plus in F.
    pose proof (Qfloor_le (q + (1 # 2))) as G.
    change (inject_Z 1) with 1%Q in F. split; lra.
Qed.

Lemma clampInt_integer_in_bounds_witness :
  exists z : Z,
    clampInt (Fin (149 # 2)) (of_Z 0) (of_Z 100) = of_Z z
    /\ (0 <= z <= 100)%Z
    /\ (forall q, Fin (149 # 2) = Fin q ->
          (inject_Z 0 <= q)%Q -> (q <= inject_Z 100)%Q ->
          (q - (1 # 2) < inject_Z z)%Q /\ (inject_Z z <= q + (1 # 2))%Q).
Proof. apply clampInt_integer_in_bounds; [lia | discriminate]. Defined.

(** X2. Clamping twice is clamping once, whatever the integer bounds (even
    inverted ones) and whatever the number. *)
Theorem clampInt_idempotent (lo hi : Z) (n : number) :
  clampInt (clampInt n (of_Z lo) (of_Z hi)) (of_Z lo) (of_Z hi)
  = clampInt n (of_Z lo) (of_Z hi).
Proof.
  rewrite (clampInt_cases lo hi n).
  destruct n as [| | |q]; rewrite ?clampInt_cases; try reflexivity;
    unfold of_Z at 1; rewrite ?Qfloor_half; f_equal; lia.
Qed.

(** X3. [clampInt] is monotone on finite numbers: a larger input never
    gives a smaller result; in particular two representations of the same
    rational give the same result. *)
Theorem clampInt_monotone (lo hi : Z) (p q : Q) :
  (p <= q)%Q ->
  exists a b : Z,
    clampInt (Fin p) (of_Z lo) (of_Z hi) = of_Z a
    /\ clampInt (Fin q) (of_Z lo) (of_Z hi) = of_Z b
    /\ (a <= b)%Z.
Proof.
  intros H. rewrite !clampInt_cases. do 2 eexists. repeat split.
  assert (M : (Qfloor (p + (1 # 2)) <= Qfloor (q + (1 # 2)))%Z)
    by (apply Qfloor_resp_le, Qplus_le_l; exact H).
  lia.
Qed.

Lemma clampInt_monotone_witness :
  exists a b : Z,
    clampInt (Fin (1 # 3)) (of_Z 0) (of_Z 100) = of_Z a
    /\ clampInt (Fin (5 # 2)) (of_Z 0) (of_Z 100) = of_Z b
    /\ (a <= b)%Z.
Proof. apply clampInt_monotone. discriminate. Defined.

(* ------------------------------------------------------------------ *)
(** ** Further properties: rule evaluator *)

Lemma cold_and_hot_exclude (t : number) :
  num_ltb t (of_Z 8) && num_gtb t (of_Z 32) = false.
Proof.
  unfold num_gtb.
  destruct (num_ltb t (of_Z 8)) eqn:C; [|reflexivity].
  destruct (num_ltb (of_Z 32) t) eqn:H; [|reflexivity].
  apply num_ltb_spec in C. apply num_ltb_spec in H.
  inversion C as [x y L1| | |]; subst; inversion H as [x' y' L2| | |]; subst.
  exfalso. apply (Qlt_irrefl (inject_Z 32)).
  eapply Qlt_trans; [exact L2|]. eapply Qlt_trans; [exact L1|]. reflexivity.
Qed.

(** X4. No snapshot is both too cold and too hot, so the evaluator writes
    at most three notes; it writes exactly one note per condition that
    holds (rain, cold, hot, wind). *)
Theorem notes_count (w : WeatherSnapshot) :
  let h := ruleHintsFromWeather w in
  tooCold (flags h) && tooHot (flags h) = false
  /\ List.length (notes h)
     = count_true [isRainy w; tooCold (flags h); tooHot (flags h); tooWindy (flags h)]
  /\ List.length (notes h) <= 3.
Proof.
  cbn zeta. unfold ruleHintsFromWeather; cbn [flags notes tooCold tooHot tooWindy].
  pose proof (cold_and_hot_exclude (tempC w)) as X.
  destruct (isRainy w), (num_ltb (tempC w) (of_Z 8)),
    (num_gtb (tempC w) (of_Z 32)), (num_gtb (windMps w) (of_Z 10));
    try discriminate X; repeat split; cbn; lia.
Qed.

(** X5. The hints sent to the model agree with each other: [notes] is
    empty exactly when [preferIndoor] is false. *)
Theorem notes_empty_iff_no_bias (w : WeatherSnapshot) :
  notes (ruleHintsFromWeather w) = []
  <-> preferIndoor (ruleHintsFromWeather w) = false.
Proof.
  unfold ruleHintsFromWeather; cbn [preferIndoor notes].
  destruct (isRainy w), (num_ltb (tempC w) (of_Z 8)),
    (num_gtb (tempC w) (of_Z 32)), (num_gtb (windMps w) (of_Z 10));
    cbn [orb app]; split; intros H; try reflexivity; discriminate H.
Qed.

(* ------------------------------------------------------------------ *)
(** ** Further properties: fallback generator *)

(** X6. The fallback list is in ranking order for every input: each
    confidence is at least the next one, the warning entries included. *)
Theorem fallback_ranked (w : WeatherSnapshot) (place : value) :
  descending (map confidence (fallbackRecommendations w place)) = true.
Proof. rewrite fallbackRecommendations_cases. pool_cases w place; reflexivity. Qed.

Lemma within_schema_check (r : Recommendation) (z : Z) :
  (2 <=? List.length (title r)) && (List.length (title r) <=? 60)
  && (10 <=? List.length (reason r)) && (List.length (reason r) <=? 140) = true ->
  confidence r = of_Z z -> (0 <= z <= 100)%Z ->
  within_schema r.
Proof.
  rewrite !andb_true_iff, !Nat.leb_le. intros (((A & B) & C) & D) E Hz.
  repeat split; try assumption. exists z. split; assumption.
Qed.

(** X7. Whatever the weather and the place, the fallback list satisfies
    the schema asked of the model: 5 to 8 entries, titles of 2 to 60 code
    units, reasons of 10 to 140, integer confidences of [0, 100]. *)
Theorem fallback_within_schema (w : WeatherSnapshot) (place : value) :
  5 <= List.length (fallbackRecommendations w place) <= 8
  /\ Forall within_schema (fallbackRecommendations w place).
Proof.
  rewrite fallbackRecommendations_cases. unfold extras, safetyNote.
  pool_cases w place; (split; [cbn; lia|]); destruct (isRainy w);
    repeat (apply Forall_cons || apply Forall_nil);
    (eapply within_schema_check; [vm_compute; reflexivity | reflexivity | lia]).
Qed.

(** X8. A place that is neither the string "indoor" nor the string
    "outdoor" (another string such as "either" or "Outdoor", a number, an
    object, [null]) is treated exactly like an absent preference. *)
Theorem fallback_ignores_unknown_place (w : WeatherSnapshot) (place : value) :
  is_str place (js "indoor") = false ->
  is_str place (js "outdoor") = false ->
  fallbackRecommendations w place = fallbackRecommendations w VUndefined.
Proof. intros I O. rewrite !fallbackRecommendations_cases, I, O. reflexivity. Qed.

Lemma fallback_ignores_unknown_place_witness :
  fallbackRecommendations (snapshot 2 3 true) (VStr (js "Outdoor"))
  = fallbackRecommendations (snapshot 2 3 true) VUndefined.
Proof. apply fallback_ignores_unknown_place; reflexivity. Defined.

(** X9. No title appears twice in a fallback list. *)
Theorem fallback_titles_distinct (w : WeatherSnapshot) (place : value) :
  NoDup (map title (fallbackRecommendations w place)).
Proof.
  rewrite fallbackRecommendations_cases.
  pool_cases w place;
    repeat (constructor; [vm_compute; intuition discriminate|]); constructor.
Qed.

(* ------------------------------------------------------------------ *)
(** ** Further properties: weather client *)

Lemma starts_with_app same pat x post :
  Forall2 (fun p c => same p c = true) pat x ->
  starts_with same pat (x ++ post) = true.
Proof.
  induction 1 as [|p c pat x H _ IH]; [reflexivity|].
  cbn. rewrite H, IH. reflexivity.
Qed.

Lemma occurs_app same pat pre x post :
  Forall2 (fun p c => same p c = true) pat x ->
  occurs same pat (pre ++ x ++ post) = true.
Proof.
  intros H. induction pre as [|c pre IH].
  - cbn [app]. destruct (x ++ post) eqn:E; cbn [occurs];
      rewrite <- ?E, (starts_with_app same post H); reflexivity.
  - cbn [app occurs]. rewrite IH. apply orb_true_r.
Qed.

(** A text that contains one of the four words, in any mix of upper and
    lower case, matches the pattern. *)
Lemma mentions_rain_intro word pre x post :
  In word rain_words ->
  Forall2 (fun p c => same_letter p c = true) word x ->
  mentions_rain (pre ++ x ++ post) = true.
Proof.
  intros Hin H. unfold mentions_rain. apply existsb_exists.
  exists word. split; [exact Hin | apply occurs_app; exact H].
Qed.

Section WeatherFacts.
Context {RT : Runtime}.

(** What [fetchOpenWeather] has seen when it returns a snapshot. *)
Lemma readWeather_inr city res w :
  readWeather city res = inr w ->
  exists r data t wd cond,
    res = FetchResolved r /\ res_ok r = true /\ res_json r = Some data
    /\ Number_ (opt_get (opt_get data (js "main")) (js "temp")) = inr t
    /\ Number_ (opt_get (opt_get data (js "wind")) (js "speed")) = inr wd
    /\ isFinite t = true /\ isFinite wd = true
    /\ w = {| provider := openweather; city := city; tempC := t; windMps := wd;
              condition := cond;
              isRainy :=
                truthy (and_also (opt_get data (js "rain"))
                          (or_else (own (opt_get data (js "rain")) (js "1h"))
                                   (own (opt_get data (js "rain")) (js "3h"))))
                || mentions_rain cond |}.
Proof.
  unfold readWeather, and_then. intros H.
  destruct res as [|r]; [discriminate|].
  destruct (res_ok r) eqn:Ok; [|discriminate]. cbn [negb] in H.
  destruct (res_json r) as [data|] eqn:J; [|discriminate].
  destruct (Number_ (opt_get (opt_get data (js "main")) (js "temp"))) as [?|t] eqn:T;
    [discriminate|].
  destruct (Number_ (opt_get (opt_get data (js "wind")) (js "speed"))) as [?|wd] eqn:S;
    [discriminate|].
  destruct (String_ _) as [?|cond]; [discriminate|].
  destruct (isFinite t) eqn:Ft; [|discriminate].
  destruct (isFinite wd) eqn:Fw; [|discriminate].
  cbn [negb orb] in H. injection H as <-.
  exists r, data, t, wd, cond. repeat split; auto.
Qed.

Lemma weather_snapshot_is_finite_parts city0 res w :
  readWeather city0 res = inr w ->
  isFinite (tempC w) = true /\ isFinite (windMps w) = true /\ city w = city0.
Proof.
  intros H. apply readWeather_inr in H.
  destruct H as (r & data & t & wd & cond & _ & _ & _ & _ & _ & Ft & Fw & ->).
  repeat split; assumption.
Qed.

(** X10. A snapshot returned by [fetchOpenWeather] always has a finite
    temperature and a finite wind speed (never [NaN] or an infinity),
    carries the city it was asked for, and comes from a reply of status
    2xx whose body was JSON. *)
Theorem weather_snapshot_is_finite (city0 : jsstring) (res : fetch_result)
    (w : WeatherSnapshot) :
  readWeather city0 res = inr w ->
  isFinite (tempC w) = true
  /\ isFinite (windMps w) = true
  /\ city w = city0
  /\ exists r data, res = FetchResolved r /\ res_ok r = true /\ res_json r = Some data.
Proof.
  intros H. apply readWeather_inr in H.
  destruct H as (r & data & t & wd & cond & -> & Ok & J & _ & _ & Ft & Fw & ->).
  cbn [tempC windMps city]. repeat split; try assumption. eauto.
Qed.

(** X11. In a snapshot returned by [fetchOpenWeather], a condition text
    that contains "rain", "drizzle", "storm" or "thunder" in any mix of
    upper and lower case implies [isRainy]; the rule evaluator then prefers
    indoor and the fallback list starts with the five indoor entries
    whatever place was asked for. *)
Theorem rainy_condition_means_indoor (city0 : jsstring) (res : fetch_result)
    (w : WeatherSnapshot) (word pre x post : jsstring) :
  readWeather city0 res = inr w ->
  In word rain_words ->
  Forall2 (fun p c => same_letter p c = true) word x ->
  condition w = pre ++ x ++ post ->
  isRainy w = true
  /\ preferIndoor (ruleHintsFromWeather w) = true
  /\ forall place, firstn 5 (fallbackRecommendations w place) = indoor_pool.
Proof.
  intros H Hin Hx Hc. apply readWeather_inr in H.
  destruct H as (r & data & t & wd & cond & _ & _ & _ & _ & _ & _ & _ & E).
  assert (R : isRainy w = true).
  { rewrite E in Hc |- *. cbn [condition] in Hc. cbn [isRainy].
    rewrite Hc, (mentions_rain_intro pre post Hin Hx). apply orb_true_r. }
  assert (P : preferIndoor (ruleHintsFromWeather w) = true).
  { unfold ruleHintsFromWeather; cbn [preferIndoor]. rewrite R. reflexivity. }
  repeat split; try assumption.
  intros place. rewrite fallbackRecommendations_cases, P.
  destruct (is_str place (js "outdoor")); reflexivity.
Qed.

(** X12. A [null] temperature in the provider's reply is not refused. A
    reply of status 2xx with a JSON body whose temperature is [null], whose
    wind speed converts to a finite number and whose condition converts to
    a text makes [fetchOpenWeather] return a snapshot; its temperature is
    0 degrees, which counts as too cold, so that indoor is preferred. *)
Theorem null_temperature_reads_as_zero (city0 : jsstring) (r : Response) (data : value)
    (wd : number) :
  res_ok r = true ->
  res_json r = Some data ->
  opt_get (opt_get data (js "main")) (js "temp") = VNull ->
  Number_ (opt_get (opt_get data (js "wind")) (js "speed")) = inr wd ->
  isFinite wd = true ->
  convertible (condition_value data) = true ->
  exists w,
    readWeather city0 (FetchResolved r) = inr w
    /\ tempC w = of_Z 0
    /\ windMps w = wd
    /\ city w = city0
    /\ tooCold (flags (ruleHintsFromWeather w)) = true
    /\ preferIndoor (ruleHintsFromWeather w) = true.
Proof.
  intros Ok J N S F C.
  generalize (to_string_convertible (condition_value data)). rewrite C.
  intros [cond Ec]. unfold condition_value in Ec. cbv zeta in Ec.
  eexists. split.
  { unfold readWeather, String_. rewrite Ok, J, N, S. cbn [negb Number_ and_then].
    rewrite Ec. cbn [and_then]. rewrite F. cbn [isFinite of_Z negb orb]. reflexivity. }
  cbn [tempC windMps city]. repeat split.
  unfold ruleHintsFromWeather; cbn [preferIndoor tempC].
  change (num_ltb (of_Z 0) (of_Z 8)) with true. apply orb_true_iff. left.
  apply orb_true_iff. left. apply orb_true_r.
Qed.

End WeatherFacts.

Lemma weather_snapshot_is_finite_witness :
  exists w,
    readWeather (RT := scenario_runtime VNull) (js "Oslo") (weather_reply rainy_payload)
    = inr w
    /\ isFinite (tempC w) = true
    /\ isFinite (windMps w) = true
    /\ city w = js "Oslo".
Proof.
  eexists. split; [vm_compute; reflexivity|].
  destruct (@weather_snapshot_is_finite (scenario_runtime VNull) (js "Oslo")
              (weather_reply rainy_payload) _ eq_refl) as (A & B & C & _).
  repeat split; assumption.
Defined.

Lemma rainy_condition_means_indoor_witness :
  exists w,
    readWeather (RT := scenario_runtime VNull) (js "Oslo") (weather_reply rainy_payload)
    = inr w
    /\ isRainy w = true
    /\ preferIndoor (ruleHintsFromWeather w) = true
    /\ forall place, firstn 5 (fallbackRecommendations w place) = indoor_pool.
Proof.
  eexists. split; [vm_compute; reflexivity|].
  apply (@rainy_condition_means_indoor (scenario_runtime VNull) (js "Oslo")
           (weather_reply rainy_payload) _ (js "rain") [] (js "Rain") []).
  - reflexivity.
  - left. reflexivity.
  - repeat constructor.
  - reflexivity.
Defined.

Lemma null_temperature_reads_as_zero_witness :
  exists w,
    readWeather (RT := scenario_runtime VNull) (js "Oslo")
                (weather_reply null_temp_payload) = inr w
    /\ tempC w = of_Z 0
    /\ windMps w = Fin 3
    /\ city w = js "Oslo"
    /\ tooCold (flags (ruleHintsFromWeather w)) = true
    /\ preferIndoor (ruleHintsFromWeather w) = true.
Proof.
  apply (@null_temperature_reads_as_zero (scenario_runtime VNull) (js "Oslo")
           {| res_status := 200; res_statusText := js "OK";
              res_text := None; res_json := Some null_temp_payload |}
           null_temp_payload (Fin 3)); reflexivity.
Defined.

(* ------------------------------------------------------------------ *)
(** ** Further properties: trimming *)

Lemma drop_while_snoc p l c :
  p c = false -> drop_while p (l ++ [c]) = drop_while p l ++ [c].
Proof.
  intros H. induction l as [|x l IH]; cbn.
  - rewrite H. reflexivity.
  - destruct (p x); [exact IH | reflexivity].
Qed.

Lemma drop_while_idem p l : drop_while p (drop_while p l) = drop_while p l.
Proof.
  induction l as [|x l IH]; cbn; [reflexivity|].
  destruct (p x) eqn:E; [exact IH|]. cbn. rewrite E. reflexivity.
Qed.

(** A trimmed string starts and ends with a code unit that is not white
    space: trimming either end again changes nothing. *)
Lemma trim_edges s :
  drop_while is_space (trim s) = trim s
  /\ drop_while is_space (rev (trim s)) = rev (trim s).
Proof.
  unfold trim. destruct (drop_while is_space s) as [|c t] eqn:E.
  - split; reflexivity.
  - assert (Hc : is_space c = false).
    { clear -E. induction s as [|x s IH]; cbn in E; [discriminate|].
      destruct (is_space x) eqn:X; [auto|]. injection E as -> _. exact X. }
    cbn [rev]. rewrite (@drop_while_snoc _ _ _ Hc), rev_app_distr. cbn [rev app].
    split.
    + cbn. rewrite Hc. reflexivity.
    + rewrite rev_involutive, (@drop_while_snoc _ _ _ Hc), drop_while_idem. reflexivity.
Qed.

Lemma trim_idempotent s : trim (trim s) = trim s.
Proof.
  destruct (trim_edges s) as [A B].
  unfold trim at 1. rewrite A, B. apply rev_involutive.
Qed.

(* ------------------------------------------------------------------ *)
(** ** Further properties: orchestrator *)

(** Case analysis along the handler's paths, keeping the test that selects
    each one. *)
Ltac walk_handler :=
  rewrite run_handler; cbv zeta;
  repeat match goal with
         | |- context [if ?c then _ else _] => destruct c eqn:?
         | |- context [match ?x with _ => _ end] => destruct x eqn:?
         end;
  cbn [fst snd].

Section OrchestratorFacts.
Context {RT : Runtime}.
Variable W : World.

(** X13. A run makes no call, or one weather fetch, or one weather fetch
    followed by one model call; the model is called only after the weather
    client has returned a snapshot and only when a model key is set, with
    that key as bearer and that snapshot and the trimmed city in the
    prompt. *)
Theorem handler_trace_shape (rq : Request) :
  let tr := snd (run (handler W rq)) in
  tr = []
  \/ (exists c k, tr = [WeatherFetch c k])
  \/ (exists c k w call,
        tr = [WeatherFetch c k; OpenAIFetch call]
        /\ fetchOpenWeather W c k = WeatherOk w
        /\ bearer call = env_or W "OPENAI_API_KEY" []
        /\ nonempty (bearer call) = true
        /\ user_weather (request_user call) = w
        /\ user_city (request_user call) = c).
Proof.
  walk_handler; auto; try (right; left; eauto; fail);
    right; right; do 4 eexists; repeat split; eauto.
Qed.

(** X14. A request whose method is not POST never reads the body and makes
    no call: OPTIONS is answered 204 and every other method 405. *)
Theorem other_methods_make_no_call (rq : Request) :
  str_eqb (method rq) (js "POST") = false ->
  snd (run (handler W rq)) = []
  /\ fst (run (handler W rq))
     = (if str_eqb (method rq) (js "OPTIONS") then Returned NoContent
        else Returned (Failure 405 (js "Method not allowed. Use POST."))).
Proof.
  intros H. rewrite run_handler, H. cbn [negb].
  destruct (str_eqb (method rq) (js "OPTIONS")); split; reflexivity.
Qed.

(** X15. A failure of the weather client ends the request: the reply is
    500 with the error's message ("Unknown error" when the thrown value is
    not an [Error]), the model provider is not called and no
    recommendation is produced. *)
Theorem weather_failure_is_terminal (rq : Request) (c k : jsstring)
    (m : option jsstring) :
  In (WeatherFetch c k) (snd (run (handler W rq))) ->
  fetchOpenWeather W c k = WeatherThrew m ->
  snd (run (handler W rq)) = [WeatherFetch c k]
  /\ fst (run (handler W rq))
     = Returned (Failure 500 (match m with
                              | Some text => text
                              | None => js "Unknown error"
                              end)).
Proof.
  walk_handler; intros I F; cbn in I;
    repeat match goal with
           | H : _ \/ _ |- _ => destruct H
           | H : False |- _ => destruct H
           | H : WeatherFetch _ _ = WeatherFetch _ _ |- _ => injection H as <- <-
           | H : OpenAIFetch _ = WeatherFetch _ _ |- _ => discriminate H
           end;
    try congruence; split; congruence.
Qed.

(** X16. Without a weather key (unset or empty) a POST with a usable city
    is answered 500 before any call, also when a model key is set. *)
Theorem missing_weather_key (rq : Request) (b : value) (s : jsstring) :
  method rq = js "POST" ->
  body rq = Some b ->
  String_ (or_else (opt_get b (js "city")) (VStr [])) = inr s ->
  nonempty (trim s) = true ->
  env_or W "WEATHER_API_KEY" [] = [] ->
  run (handler W rq)
  = (Returned (Failure 500
       (js "Missing WEATHER_API_KEY on the server (Edge Function env).")), []).
Proof.
  intros M B S N K. rewrite run_handler, M, B, S. cbv zeta. rewrite N, K. reflexivity.
Qed.

(** X17. Without a model key (unset or empty) the model provider is never
    called, and every successful reply carries the fallback list for the
    snapshot and the requested place. *)
Theorem no_model_key_means_fallback (rq : Request) :
  env_or W "OPENAI_API_KEY" [] = [] ->
  (forall call, ~ In (OpenAIFetch call) (snd (run (handler W rq))))
  /\ (forall resp,
        fst (run (handler W rq)) = Returned (Success resp) ->
        exists b,
          body rq = Some b
          /\ recommendations resp
             = fallbackRecommendations (resp_weather resp) (requested_place b)).
Proof.
  intros K. rewrite run_handler, K. cbv zeta. cbn [nonempty].
  split.
  - intros call.
    repeat match goal with
           | |- context [if ?c then _ else _] => destruct c
           | |- context [match ?x with _ => _ end] => destruct x
           end; cbn; intuition discriminate.
  - intros resp.
    repeat match goal with
           | |- context [if ?c then _ else _] => destruct c
           | |- context [match ?x with _ => _ end] => destruct x eqn:?
           end; cbn [fst]; intros H; try discriminate H.
    injection H as <-. eexists. split; reflexivity.
Qed.

(** X18. The weather client is only ever called with a non-empty city that
    neither starts nor ends with white space, and with the non-empty
    configured weather key. *)
Theorem weather_call_arguments (rq : Request) (c k : jsstring) :
  In (WeatherFetch c k) (snd (run (handler W rq))) ->
  nonempty c = true
  /\ trim c = c
  /\ k = env_or W "WEATHER_API_KEY" []
  /\ nonempty k = true.
Proof.
  walk_handler; intros I; cbn in I;
    repeat match goal with
           | H : _ \/ _ |- _ => destruct H
           | H : False |- _ => destruct H
           | H : WeatherFetch _ _ = WeatherFetch _ _ |- _ => injection H as <- <-
           | H : OpenAIFetch _ = WeatherFetch _ _ |- _ => discriminate H
           end;
    repeat match goal with
           | H : negb _ = false |- _ => apply negb_false_iff in H
           end;
    repeat split; auto using trim_idempotent.
Qed.

(** X19. The handler lets an exception escape only when the body's city is
    an array or an object: with an absent or primitive city (and with no
    readable body at all) it always returns a reply. *)
Theorem handler_returns_on_primitive_city (rq : Request) :
  (forall b, body rq = Some b -> is_primitive (opt_get b (js "city")) = true) ->
  exists r, fst (run (handler W rq)) = Returned r.
Proof.
  intros P. rewrite run_handler.
  destruct (str_eqb (method rq) (js "OPTIONS")); [eexists; reflexivity|].
  destruct (negb (str_eqb (method rq) (js "POST"))); [eexists; reflexivity|].
  destruct (body rq) as [b|]; [|eexists; reflexivity].
  specialize (P b eq_refl).
  assert (Q : is_primitive (or_else (opt_get b (js "city")) (VStr [])) = true)
    by (unfold or_else; destruct (truthy _); auto).
  destruct (to_string_primitive _ Q) as [s Hs]. unfold String_. rewrite Hs. cbv zeta.
  repeat match goal with
         | |- context [if ?c then _ else _] => destruct c
         | |- context [match ?x with _ => _ end] => destruct x
         end; eexists; reflexivity.
Qed.

End OrchestratorFacts.

Lemma other_methods_make_no_call_witness :
  let W := scenario_world mild provider_down in
  let rq := {| method := js "GET"; body := None |} in
  snd (run (handler (RT := scenario_runtime VNull) W rq)) = []
  /\ fst (run (handler (RT := scenario_runtime VNull) W rq))
     = (if str_eqb (method rq) (js "OPTIONS") then Returned NoContent
        else Returned (Failure 405 (js "Method not allowed. Use POST."))).
Proof.
  cbv zeta.
  apply (@other_methods_make_no_call (scenario_runtime VNull)
           (scenario_world mild provider_down) {| method := js "GET"; body := None |}).
  reflexivity.
Defined.

Lemma weather_failure_is_terminal_witness :
  let W := deployment (Some (js "weather-key")) (Some (js "model-key"))
             (WeatherThrew (Some (js "Weather API error (404): city not found")))
             (completion empty_reply) in
  snd (run (handler (RT := scenario_runtime VNull) W (post "Atlantis" "either")))
  = [WeatherFetch (js "Atlantis") (js "weather-key")]
  /\ fst (run (handler (RT := scenario_runtime VNull) W (post "Atlantis" "either")))
     = Returned (Failure 500 (js "Weather API error (404): city not found")).
Proof.
  cbv zeta.
  apply (@weather_failure_is_terminal (scenario_runtime VNull)
           (deployment (Some (js "weather-key")) (Some (js "model-key"))
              (WeatherThrew (Some (js "Weather API error (404): city not found")))
              (completion empty_reply))
           (post "Atlantis" "either") (js "Atlantis") (js "weather-key")
           (Some (js "Weather API error (404): city not found"))).
  - left. reflexivity.
  - reflexivity.
Defined.

Lemma missing_weather_key_witness :
  run (handler (RT := scenario_runtime VNull)
         (deployment None (Some (js "model-key")) (WeatherOk mild) provider_down)
         (post "Oslo" "either"))
  = (Returned (Failure 500
       (js "Missing WEATHER_API_KEY on the server (Edge Function env).")), []).
Proof.
  eapply (@missing_weather_key (scenario_runtime VNull)
            (deployment None (Some (js "model-key")) (WeatherOk mild) provider_down)
            (post "Oslo" "either")); reflexivity.
Defined.

Lemma no_model_key_means_fallback_witness :
  let W := deployment (Some (js "weather-key")) None (WeatherOk mild)
             (completion empty_reply) in
  (forall call,
     ~ In (OpenAIFetch call)
          (snd (run (handler (RT := scenario_runtime VNull) W (post "Oslo" "indoor")))))
  /\ (forall resp,
        fst (run (handler (RT := scenario_runtime VNull) W (post "Oslo" "indoor")))
        = Returned (Success resp) ->
        exists b,
          body (post "Oslo" "indoor") = Some b
          /\ recommendations resp
             = fallbackRecommendations (resp_weather resp) (requested_place b)).
Proof.
  cbv zeta.
  apply (@no_model_key_means_fallback (scenario_runtime VNull)
           (deployment (Some (js "weather-key")) None (WeatherOk mild)
              (completion empty_reply))
           (post "Oslo" "indoor")).
  reflexivity.
Defined.

Lemma weather_call_arguments_witness :
  nonempty (js "Oslo") = true
  /\ trim (js "Oslo") = js "Oslo"
  /\ js "weather-key"
     = env_or (scenario_world mild provider_down) "WEATHER_API_KEY" []
  /\ nonempty (js "weather-key") = true.
Proof.
  apply (@weather_call_arguments (scenario_runtime VNull)
           (scenario_world mild provider_down) (post "  Oslo " "either")).
  left. reflexivity.
Defined.

Lemma handler_returns_on_primitive_city_witness :
  exists r,
    fst (run (handler (RT := scenario_runtime VNull)
                (scenario_world mild provider_down)
                {| method := js "POST";
                   body := Some (VObj [(js "city", VNum (of_Z 42))]) |}))
    = Returned r.
Proof.
  apply (@handler_returns_on_primitive_city (scenario_runtime VNull)).
  intros b E. injection E as <-. reflexivity.
Defined.

(* ------------------------------------------------------------------ *)
(** ** Further properties: model-assisted generator *)

Section ModelMore.
Context {RT : Runtime}.

Lemma toRecommendation_spells it r :
  spells it r -> within_limits r -> toRecommendation it = inr r.
Proof.
  intros (T & R & L & C) (Ht & Hr & (z & Hz & Hrange)).
  assert (N : is_nullish it = false).
  { destruct it; try reflexivity; discriminate T. }
  unfold toRecommendation, String_, and_then. rewrite N, T, R, L, C, Hz.
  cbn [coalesce is_nullish to_string Number_]. unfold slice0.
  rewrite (firstn_all2 _ Ht), (firstn_all2 _ Hr), (clampInt_of_Z Hrange), <- Hz.
  destruct r as [t rs [] c]; reflexivity.
Qed.

(** X20. A reply within the limits the generator applies is returned
    verbatim: when each element of the array spells out an entry whose
    title has at most 60 code units, whose reason has at most 140 and
    whose confidence is an integer of [0, 100] (in any property order,
    with any extra properties), the generator returns exactly those
    entries, in order. *)
Theorem reply_within_limits_is_returned_verbatim
    (r : Response) (data parsed : value) (text : jsstring)
    (items : list value) (recs : list Recommendation) :
  res_ok r = true ->
  res_json r = Some data ->
  opt_get data (js "output_text") = VStr text ->
  JSON_parse text = Some parsed ->
  opt_get parsed (js "recommendations") = VArr items ->
  Forall2 spells items recs ->
  Forall within_limits recs ->
  readCompletion (FetchResolved r) = inr recs.
Proof.
  intros Ok J T P A S B. unfold readCompletion. rewrite Ok, J, T, P, A. cbn [negb].
  clear -S B. induction S as [|it rc items recs H _ IH]; [reflexivity|].
  inversion B as [|? ? B1 B2]; subst. cbn [map_throwing]. unfold and_then.
  rewrite (toRecommendation_spells H B1), (IH B2). reflexivity.
Qed.

(** X21. The two reply shapes of the provider are read alike: a text found
    under [output[0].content[0].text], when [output_text] is not a string,
    gives the same result as the same text under [output_text]. *)
Theorem reply_shapes_agree (r1 r2 : Response) (d1 d2 : value) (text : jsstring) :
  res_ok r1 = true -> res_ok r2 = true ->
  res_json r1 = Some d1 -> res_json r2 = Some d2 ->
  opt_get d1 (js "output_text") = VStr text ->
  (forall s, opt_get d2 (js "output_text") <> VStr s) ->
  opt_get (opt_index (opt_get (opt_index (opt_get d2 (js "output")) 0) (js "content")) 0)
          (js "text") = VStr text ->
  readCompletion (FetchResolved r1) = readCompletion (FetchResolved r2).
Proof.
  intros O1 O2 J1 J2 T1 N2 T2. unfold readCompletion.
  rewrite O1, O2, J1, J2, T1. cbn [negb].
  destruct (opt_get d2 (js "output_text")) eqn:E;
    try (exfalso; eapply N2; reflexivity); rewrite T2; reflexivity.
Qed.

End ModelMore.

Lemma reply_within_limits_is_returned_verbatim_witness :
  readCompletion (RT := scenario_runtime (reply_of [picnic_item]))
                 (completion (reply_of [picnic_item]))
  = inr [picnic].
Proof.
  eapply (@reply_within_limits_is_returned_verbatim
            (scenario_runtime (reply_of [picnic_item]))
            (flat_completion (reply_of [picnic_item])) _ (reply_of [picnic_item])
            (json_text (reply_of [picnic_item])) [picnic_item] [picnic]).
  - reflexivity.
  - reflexivity.
  - reflexivity.
  - vm_compute. reflexivity.
  - reflexivity.
  - repeat constructor.
  - constructor; [|constructor].
    repeat split; [vm_compute; lia | vm_compute; lia |].
    exists 80%Z. split; [reflexivity | lia].
Defined.

(** The limits count code units: a title of 31 characters outside the
    Basic Multilingual Plane, which the schema allows, takes 62 code units
    and is cut to 30 characters. *)
Example astral_title_is_cut :
  let it := VObj [(js "title", VStr astral_title)] in
  List.length astral_title = 62
  /\ forall RT : Runtime,
       exists r, toRecommendation (RT := RT) it = inr r
                 /\ title r = firstn 60 astral_title
                 /\ title r <> astral_title.
Proof.
  cbv zeta. split; [reflexivity|]. intros RT. eexists. split; [reflexivity|].
  cbn [title]. split; [reflexivity|]. vm_compute. discriminate.
Qed.

Lemma reply_shapes_agree_witness :
  readCompletion (RT := scenario_runtime (reply_of [picnic_item]))
                 (FetchResolved (flat_completion (reply_of [picnic_item])))
  = readCompletion (RT := scenario_runtime (reply_of [picnic_item]))
                   (FetchResolved (nested_completion (reply_of [picnic_item]))).
Proof.
  eapply (@reply_shapes_agree (scenario_runtime (reply_of [picnic_item]))
            (flat_completion (reply_of [picnic_item]))
            (nested_completion (reply_of [picnic_item])) _ _
            (json_text (reply_of [picnic_item])));
    try reflexivity.
  intros s. discriminate.
Defined.

(* ------------------------------------------------------------------ *)
(** ** Further properties: the handler over the real weather client *)

Section OverHttp.
Context {RT : Runtime}.
Variable W : World.
Variable http : WeatherRequest -> fetch_result.
Hypothesis client : weather_client_over http W.

(** The snapshot of a successful reply is what the weather client
    returned for the reply's city. *)
Lemma success_snapshot (rq : Request) (resp : RecommendResponse) :
  fst (run (handler W rq)) = Returned (Success resp) ->
  fetchOpenWeather W (resp_city resp) (env_or W "WEATHER_API_KEY" [])
  = WeatherOk (resp_weather resp)
  /\ nonempty (resp_city resp) = true
  /\ trim (resp_city resp) = resp_city resp.
Proof.
  walk_handler; intros H; try discriminate H; injection H as <-;
    cbn [resp_city resp_weather];
    repeat match goal with
           | H : negb _ = false |- _ => apply negb_false_iff in H
           end;
    repeat split; auto using trim_idempotent.
Qed.

(** The city of a successful reply is the trimmed city of the request. *)
Lemma success_city (rq : Request) (resp : RecommendResponse) :
  fst (run (handler W rq)) = Returned (Success resp) ->
  exists b s,
    body rq = Some b
    /\ String_ (or_else (opt_get b (js "city")) (VStr [])) = inr s
    /\ resp_city resp = trim s.
Proof.
  rewrite run_handler.
  destruct (str_eqb (method rq) (js "OPTIONS")); [discriminate|].
  destruct (negb (str_eqb (method rq) (js "POST"))); [discriminate|].
  destruct (body rq) as [b|]; [|discriminate].
  destruct (String_ (or_else (opt_get b (js "city")) (VStr []))) as [?|s] eqn:S;
    [discriminate|].
  cbv zeta.
  destruct (negb (nonempty (trim s))); [discriminate|].
  destruct (negb (nonempty (env_or W "WEATHER_API_KEY" []))); [discriminate|].
  destruct (fetchOpenWeather W (trim s) (env_or W "WEATHER_API_KEY" [])) as [w|m];
    [|discriminate].
  destruct (nonempty (env_or W "OPENAI_API_KEY" [])); cbn [fst];
    intros H; injection H as <-; exists b, s; repeat split; exact S.
Qed.

(** X22. When the weather client is [fetchOpenWeather], the city of every
    successful reply is the city of the request's body, converted to a
    string and trimmed, and it is not empty; the snapshot of the reply is
    the one [fetchOpenWeather] made of the provider's answer for that city
    and the configured key: it carries that city, a finite temperature and
    a finite wind speed. *)
Theorem success_carries_finite_weather (rq : Request) (resp : RecommendResponse) :
  fst (run (handler W rq)) = Returned (Success resp) ->
  (exists b s,
     body rq = Some b
     /\ String_ (or_else (opt_get b (js "city")) (VStr [])) = inr s
     /\ resp_city resp = trim s)
  /\ nonempty (resp_city resp) = true
  /\ readWeather (resp_city resp)
       (http (weather_request (resp_city resp) (env_or W "WEATHER_API_KEY" [])))
     = inr (resp_weather resp)
  /\ city (resp_weather resp) = resp_city resp
  /\ isFinite (tempC (resp_weather resp)) = true
  /\ isFinite (windMps (resp_weather resp)) = true.
Proof.
  intros H. destruct (success_snapshot _ H) as (F & N & T).
  split; [exact (success_city _ H)|]. split; [exact N|].
  pose proof (client (resp_city resp) (env_or W "WEATHER_API_KEY" [])) as C.
  destruct (readWeather (resp_city resp)
              (http (weather_request (resp_city resp) (env_or W "WEATHER_API_KEY" []))))
    as [e|w] eqn:R.
  - exfalso. destruct e as [m| | |]; cbv beta iota in C;
      [congruence | destruct C as [m C]; congruence ..].
  - rewrite F in C. injection C as <-.
    destruct (weather_snapshot_is_finite_parts _ _ R) as (A & B & E).
    repeat split; assumption.
Qed.

End OverHttp.

Lemma rainy_world_over {RT : Runtime} (answer : fetch_result) :
  weather_client_over (fun _ => weather_reply rainy_payload) (rainy_world answer).
Proof. intros c k. reflexivity. Qed.

Lemma success_carries_finite_weather_witness :
  let RT := scenario_runtime VNull in
  let W := rainy_world provider_down in
  let rq := post "  Oslo " "outdoor" in
  exists resp,
    fst (run (handler W rq)) = Returned (Success resp)
    /\ (exists b s,
          body rq = Some b
          /\ String_ (or_else (opt_get b (js "city")) (VStr [])) = inr s
          /\ resp_city resp = trim s)
    /\ nonempty (resp_city resp) = true
    /\ readWeather (resp_city resp) (weather_reply rainy_payload)
       = inr (resp_weather resp)
    /\ city (resp_weather resp) = resp_city resp
    /\ isFinite (tempC (resp_weather resp)) = true
    /\ isFinite (windMps (resp_weather resp)) = true.
Proof.
  cbv zeta. eexists. split; [vm_compute; reflexivity|].
  apply (@success_carries_finite_weather (scenario_runtime VNull)
           (rainy_world provider_down)
           (fun _ => weather_reply rainy_payload)
           (rainy_world_over (RT := scenario_runtime VNull) _)
           (post "  Oslo " "outdoor")).
  vm_compute. reflexivity.
Defined.

(* ------------------------------------------------------------------ *)
(** ** Further properties: browser client *)

(** X23. On the page every entry of a fallback list gets the "mid" tone,
    except the two weather-warning entries, which get "low"; no fallback
    entry is ever shown with the "high" tone. *)
Theorem fallback_tones (w : WeatherSnapshot) (place : value) :
  map (fun r => confidenceTone (shownConfidence r)) (fallbackRecommendations w place)
  = [tone_mid; tone_mid; tone_mid; tone_mid; tone_mid]
    ++ (if preferIndoor (ruleHintsFromWeather w) && is_str place (js "outdoor")
        then [tone_low; tone_low] else []).
Proof.
  rewrite fallbackRecommendations_cases. pool_cases w place; reflexivity.
Qed.

(** X24. The page's own clamping changes nothing the server clamped: in a
    successful reply every confidence other than [NaN] is shown as it was
    sent. *)
Theorem shown_confidence_is_sent {RT : Runtime} (W : World) (rq : Request)
    (resp : RecommendResponse) :
  fst (run (handler W rq)) = Returned (Success resp) ->
  Forall (fun r => confidence r = NaN \/ shownConfidence r = confidence r)
         (recommendations resp).
Proof.
  intros H. eapply Forall_impl; [|exact (returned_confidence W rq H)].
  intros r [N|(z & E & Hz)]; [left; exact N | right].
  unfold shownConfidence. rewrite E. exact (clampInt_of_Z Hz).
Qed.

Lemma shown_confidence_is_sent_witness :
  Forall (fun r => confidence r = NaN \/ shownConfidence r = confidence r)
         (fallbackRecommendations mild (VStr (js "outdoor"))).
Proof.
  apply (@shown_confidence_is_sent (scenario_runtime VNull)
           (scenario_world mild provider_down) (post "Oslo" "outdoor")
           {| resp_city := js "Oslo"; resp_weather := mild;
              recommendations := fallbackRecommendations mild (VStr (js "outdoor")) |}).
  vm_compute. reflexivity.
Defined.

Lemma reportFailure_sets_message e st :
  exists m,
    reportFailure e st = setError (Some m) st /\ nonempty m = true.
Proof.
  unfold reportFailure. cbv zeta.
  match goal with
  | |- context [if ?c then _ else _] => destruct c
  end.
  - exists unreachable_message. split; reflexivity.
  - destruct e as [m|s|].
    + destruct m; (eexists; split; [reflexivity | reflexivity]).
    + destruct s; (eexists; split; [reflexivity | reflexivity]).
    + eexists; split; [reflexivity | reflexivity].
Qed.

(** X25. When [onRecommend] has sent a request and finished, the page is
    no longer loading and shows exactly one of two things. If the
    invocation resolved without an error to data that is truthy, it shows
    that very data and no error. In every other case (the invocation
    rejected, resolved with an error, or resolved to falsy data) it shows
    no data and an error message that is never empty. *)
Theorem onRecommend_settles (env : PublicEnv) (supabase : option Client)
    (invoke : value -> invoke_result) (st : AppState) (sent : value) :
  In sent (snd (onRecommend env supabase invoke st)) ->
  let st' := fst (onRecommend env supabase invoke st) in
  sent = invoke_body (trim (app_city st)) st
  /\ app_loading st' = false
  /\ ((exists d,
         invoke sent = InvokeResolved d None /\ truthy d = true
         /\ app_data st' = Some d /\ app_error st' = None)
      \/ (exists m,
            (forall d, invoke sent = InvokeResolved d None -> truthy d = false)
            /\ app_data st' = None /\ app_error st' = Some m /\ nonempty m = true)).
Proof.
  unfold onRecommend. destruct supabase as [cl|]; [|intros []].
  destruct (negb (nonempty (trim (app_city st)))); [intros []|].
  cbn [snd]. intros [<-|[]]. cbn [fst]. split; [reflexivity|]. split; [reflexivity|].
  set (st1 := setData None (setError None (setLoading true st))).
  destruct (invoke _) as [e|d [m|]].
  - destruct (reportFailure_sets_message e st1) as (m & -> & N).
    right. exists m. repeat split; auto. discriminate.
  - destruct (reportFailure_sets_message (ThrownError m) st1) as (m' & -> & N).
    right. exists m'. repeat split; auto. discriminate.
  - destruct (truthy d) eqn:T; cbn [negb].
    + left. exists d. repeat split; auto.
    + destruct (reportFailure_sets_message (ThrownError (js "Empty response.")) st1)
        as (m' & -> & N).
      right. exists m'. repeat split; auto.
      intros d' E; injection E as <-; exact T.
Qed.

Lemma onRecommend_settles_witness :
  let invoke := fun _ : value => InvokeResolved (VObj [(js "city", VStr (js "Oslo"))]) None in
  let sent := invoke_body (js "Oslo") (typed " Oslo ") in
  let st' := fst (onRecommend (EnvOk (js "http://localhost:54321") (js "anon-key"))
                    (Some a_client) invoke (typed " Oslo ")) in
  sent = invoke_body (trim (app_city (typed " Oslo "))) (typed " Oslo ")
  /\ app_loading st' = false
  /\ ((exists d,
         invoke sent = InvokeResolved d None /\ truthy d = true
         /\ app_data st' = Some d /\ app_error st' = None)
      \/ (exists m,
            (forall d, invoke sent = InvokeResolved d None -> truthy d = false)
            /\ app_data st' = None /\ app_error st' = Some m /\ nonempty m = true)).
Proof.
  cbv zeta.
  apply (@onRecommend_settles (EnvOk (js "http://localhost:54321") (js "anon-key"))
           (Some a_client)
           (fun _ => InvokeResolved (VObj [(js "city", VStr (js "Oslo"))]) None)
           (typed " Oslo ") (invoke_body (js "Oslo") (typed " Oslo "))).
  left. reflexivity.
Defined.

(** X26. Every request the page sends passes the handler's validation: it
    is a POST whose city is the trimmed, non-empty input and whose place is
    the selected one. The handler answers it in one of three ways: status
    500 for the missing weather key, without any call; or, after calling
    the weather client with exactly that city, status 500 or a success
    whose city is that city. It never answers 400 or 405 and never
    throws. *)
Theorem page_requests_pass_validation {RT : Runtime} (W : World)
    (env : PublicEnv) (supabase : option Client)
    (invoke : value -> invoke_result) (st : AppState) (sent : value) :
  In sent (snd (onRecommend env supabase invoke st)) ->
  nonempty (trim (app_city st)) = true
  /\ requested_place sent = place_value (Some (app_place st))
  /\ (run (handler W (invocation sent))
      = (Returned (Failure 500
           (js "Missing WEATHER_API_KEY on the server (Edge Function env).")), [])
      \/ exists rest,
           snd (run (handler W (invocation sent)))
           = WeatherFetch (trim (app_city st)) (env_or W "WEATHER_API_KEY" []) :: rest
           /\ ((exists m, fst (run (handler W (invocation sent)))
                          = Returned (Failure 500 m))
               \/ (exists resp,
                     fst (run (handler W (invocation sent))) = Returned (Success resp)
                     /\ resp_city resp = trim (app_city st))))
  /\ (forall m, fst (run (handler W (invocation sent))) <> Returned (Failure 400 m))
  /\ (forall m, fst (run (handler W (invocation sent))) <> Returned (Failure 405 m))
  /\ (forall e, fst (run (handler W (invocation sent))) <> Threw e).
Proof.
  unfold onRecommend. destruct supabase as [cl|]; [|intros []].
  destruct (nonempty (trim (app_city st))) eqn:N; cbn [negb]; [|intros []].
  cbn [snd]. intros [<-|[]]. split; [reflexivity|]. split.
  { unfold requested_place, invoke_body. destruct (app_place st); reflexivity. }
  rewrite run_handler.
  change (method (invocation (invoke_body (trim (app_city st)) st))) with (js "POST").
  change (str_eqb (js "POST") (js "OPTIONS")) with false.
  change (negb (str_eqb (js "POST") (js "POST"))) with false.
  cbv iota. cbn [body invocation].
  change (opt_get (invoke_body (trim (app_city st)) st) (js "city"))
    with (VStr (trim (app_city st))).
  unfold or_else. cbn [truthy]. rewrite N. cbn [String_ to_string]. cbv zeta.
  rewrite trim_idempotent, N. cbn [negb].
  repeat match goal with
         | |- context [if ?c then _ else _] => destruct c
         | |- context [match ?x with _ => _ end] => destruct x
         end; cbn [fst snd];
    (split;
     [first [ left; reflexivity
            | right; eexists; split;
              [reflexivity
              | first [ left; eexists; reflexivity
                      | right; eexists; split; reflexivity ] ] ]
     | repeat split; intros; discriminate ]).
Qed.

Lemma page_requests_pass_validation_witness :
  let RT := scenario_runtime VNull in
  let W := scenario_world mild provider_down in
  let sent := invoke_body (js "Oslo") (typed " Oslo ") in
  nonempty (trim (app_city (typed " Oslo "))) = true
  /\ requested_place sent = place_value (Some (app_place (typed " Oslo ")))
  /\ (run (handler W (invocation sent))
      = (Returned (Failure 500
           (js "Missing WEATHER_API_KEY on the server (Edge Function env).")), [])
      \/ exists rest,
           snd (run (handler W (invocation sent)))
           = WeatherFetch (trim (app_city (typed " Oslo ")))
                          (env_or W "WEATHER_API_KEY" []) :: rest
           /\ ((exists m, fst (run (handler W (invocation sent)))
                          = Returned (Failure 500 m))
               \/ (exists resp,
                     fst (run (handler W (invocation sent))) = Returned (Success resp)
                     /\ resp_city resp = trim (app_city (typed " Oslo ")))))
  /\ (forall m, fst (run (handler W (invocation sent))) <> Returned (Failure 400 m))
  /\ (forall m, fst (run (handler W (invocation sent))) <> Returned (Failure 405 m))
  /\ (forall e, fst (run (handler W (invocation sent))) <> Threw e).
Proof.
  cbv zeta.
  apply (@page_requests_pass_validation (scenario_runtime VNull)
           (scenario_world mild provider_down)
           (EnvOk (js "http://localhost:54321") (js "anon-key")) (Some a_client)
           (fun _ => InvokeRejected ThrownOther) (typed " Oslo ")).
  left. reflexivity.
Defined.

(** X27. When [readPublicEnv] succeeds, both variables were strings, the
    values it returns are their trimmed, non-empty texts, and the URL
    parses with protocol "http:" or "https:". *)
Theorem readPublicEnv_ok {U : UrlParser} (e : ViteEnv) (u k : jsstring) :
  readPublicEnv e = EnvOk u k ->
  (exists su sk,
     VITE_SUPABASE_URL e = VStr su /\ VITE_SUPABASE_ANON_KEY e = VStr sk
     /\ u = trim su /\ k = trim sk)
  /\ nonempty u = true /\ nonempty k = true
  /\ trim u = u /\ trim k = k
  /\ (URL_protocol u = Some (js "http:") \/ URL_protocol u = Some (js "https:")).
Proof.
  unfold readPublicEnv, readViteSupabaseUrl, readViteSupabaseAnonKey, readViteString.
  destruct (VITE_SUPABASE_URL e) as [| | | |su| |]; try discriminate.
  destruct (VITE_SUPABASE_ANON_KEY e) as [| | | |sk| |]; cbv zeta;
    destruct (nonempty (trim su)) eqn:Nu; try discriminate.
  destruct (nonempty (trim sk)) eqn:Nk; try discriminate.
  unfold isValidHttpUrl.
  destruct (URL_protocol (trim su)) as [p|] eqn:P; cbn [negb]; [|discriminate].
  destruct (str_eqb p (js "http:")) eqn:A; cbn [orb negb].
  - intros H; injection H as <- <-. apply str_eqb_eq in A. subst p.
    split; [exists su, sk; repeat split; reflexivity|].
    repeat split; auto using trim_idempotent.
  - destruct (str_eqb p (js "https:")) eqn:B; cbn [negb]; [|discriminate].
    intros H; injection H as <- <-. apply str_eqb_eq in B. subst p.
    split; [exists su, sk; repeat split; reflexivity|].
    repeat split; auto using trim_idempotent.
Qed.

Lemma readPublicEnv_ok_witness :
  (exists su sk,
     VITE_SUPABASE_URL local_env = VStr su /\ VITE_SUPABASE_ANON_KEY local_env = VStr sk
     /\ js "http://localhost:54321" = trim su /\ js "anon-key" = trim sk)
  /\ nonempty (js "http://localhost:54321") = true /\ nonempty (js "anon-key") = true
  /\ trim (js "http://localhost:54321") = js "http://localhost:54321"
  /\ trim (js "anon-key") = js "anon-key"
  /\ (URL_protocol (UrlParser := local_urls) (js "http://localhost:54321")
      = Some (js "http:")
      \/ URL_protocol (UrlParser := local_urls) (js "http://localhost:54321")
         = Some (js "https:")).
Proof.
  apply (@readPublicEnv_ok local_urls local_env). vm_compute. reflexivity.
Defined.

(** Once the slot is filled every call returns its content and leaves the
    page as it is. *)
Lemma getSupabaseClients_filled args g c :
  slot g = Some c ->
  getSupabaseClients args g = (repeat c (List.length args), g).
Proof.
  intros S. induction args as [|[u k] rest IH]; [reflexivity|].
  cbn [getSupabaseClients]. unfold getSupabaseClient. rewrite S, IH. reflexivity.
Qed.

(** X28. [getSupabaseClient] creates one client per page: in any series of
    calls starting with an empty slot, [createClient] runs once, with the
    arguments of the first call, and every call returns that same client,
    whatever URL and key the later calls pass. *)
Theorem getSupabaseClient_is_singleton (g : Page) (u k : jsstring)
    (rest : list (jsstring * jsstring)) :
  slot g = None ->
  let first := {| client_id := created g; client_url := u; client_key := k |} in
  getSupabaseClients ((u, k) :: rest) g
  = (repeat first (S (List.length rest)),
     {| slot := Some first; created := S (created g) |}).
Proof.
  intros S. cbv zeta. cbn [getSupabaseClients]. unfold getSupabaseClient at 1.
  rewrite S.
  rewrite (@getSupabaseClients_filled rest
             {| slot := Some {| client_id := created g; client_url := u;
                                client_key := k |};
                created := Datatypes.S (created g) |}
             {| client_id := created g; client_url := u; client_key := k |} eq_refl).
  reflexivity.
Qed.

Lemma getSupabaseClient_is_singleton_witness :
  getSupabaseClients
    [(js "http://localhost:54321", js "anon-key"); (js "https://example.org", js "other")]
    fresh_page
  = ([a_client; a_client], {| slot := Some a_client; created := 1 |}).
Proof.
  apply (@getSupabaseClient_is_singleton fresh_page (js "http://localhost:54321")
           (js "anon-key") [(js "https://example.org", js "other")]).
  reflexivity.
Defined.
